(** * eisfit.circuits: equivalent-circuit model wrappers

    A shallow embedding of [src/eisfit/circuits.py] (the classes
    [BaseCircuit], [Randles], [DefineCircuit] and [FlexiCircuit]) together
    with a model of the circuit-description engine the classes call into
    ([calculateCircuitLength], [computeCircuit]), which lives in
    [eisfit/fitting.py] and is described by the specification only. *)

From Stdlib Require Import Reals Lra Ascii String.
From stdpp Require Import gmap strings list fin_maps.

Open Scope string_scope.
Open Scope list_scope.

Set Warnings "-register-all".

(** ** Complex numbers over the reals

    Python's [complex] and numpy's [complex128], idealised to exact
    arithmetic. *)

Module Cplx.
Local Open Scope R_scope.

Record C : Type := mkC { re : R; im : R }.

Definition of_real (x : R) : C := mkC x 0.
Definition zero : C := of_real 0.
Definition one : C := of_real 1.

Definition add (a b : C) : C := mkC (re a + re b) (im a + im b).
Definition mul (a b : C) : C :=
  mkC (re a * re b - im a * im b) (re a * im b + im a * re b).
Definition norm2 (a : C) : R := re a * re a + im a * im a.
Definition inv (a : C) : C := mkC (re a / norm2 a) (- im a / norm2 a).
Definition div (a b : C) : C := mul a (inv b).

Definition sum (zs : list C) : C := foldr add zero zs.

(** [(j*w)^alpha] on the principal branch, for [w > 0]:
    [w^alpha * (cos (alpha*pi/2) + j sin (alpha*pi/2))]. *)
Definition jw_pow (w alpha : R) : C :=
  mkC (Rpower w alpha * cos (alpha * PI / 2))
      (Rpower w alpha * sin (alpha * PI / 2)).

End Cplx.

Export Cplx(C, mkC).

(** ** Python values

    The values the model classes handle: [None], booleans, integers,
    floats, complex numbers, numpy scalars and one-dimensional numpy
    arrays (tagged with their dtype), strings and lists. *)

Inductive dtype : Type := int32 | int64 | float32 | float64 | complex128.

Inductive value : Type :=
  | VNone
  | VBool (b : bool)
  | VInt (n : Z)
  | VFloat (x : R)
  | VComplex (z : C)
  | VNp (dt : dtype) (x : value)
  | VStr (s : string)
  | VList (xs : list value)
  | VNdarray (dt : dtype) (xs : list value).

(** ** Python exceptions and fallible results *)

Inductive exn : Type :=
  | AssertionError (msg : string) (args : list value)
  | ValueError (msg : string)
  | TypeError (msg : string)
  | AttributeError (attr : string)
  | IndexError (msg : string)
  | UnboundLocalError (var : string)
  | MalformedCircuitError (msg : string)
  | ParameterArityError (msg : string)
  | ExternalError (msg : string).

(** A fallible pure computation: [inl e] is "raise e". *)
Definition result (A : Type) : Type := (exn + A)%type.

Definition rbind {A B : Type} (r : result A) (k : A → result B) : result B :=
  match r with
  | inl e => inl e
  | inr a => k a
  end.

#[global] Instance result_ret : MRet result := λ A a, inr a.
#[global] Instance result_bind : MBind result := λ A B k r, rbind r k.
#[global] Instance result_throw : MThrow exn result := λ A e, inl e.

(** ** The circuit description language

    [calculateCircuitLength] and [computeCircuit] are imported from
    [eisfit/fitting.py], which is not among the sources at hand.  This
    module models them from sections 3 and 4.1 of the specification. *)

Module Description.

(** Element type codes [R], [C], [E], [W]. *)
Inductive elem_type : Type := Resistor | Capacitor | CPE | Warburg.

#[global] Instance elem_type_eq_dec : EqDecision elem_type.
Proof. solve_decision. Defined.

(** Parameter arity of each type: R and C take one, E and W take two. *)
Definition arity (ty : elem_type) : nat :=
  match ty with
  | Resistor | Capacitor => 1
  | CPE | Warburg => 2
  end.

Definition elem_of_letter (c : ascii) : option elem_type :=
  match c with
  | "R"%char => Some Resistor
  | "C"%char => Some Capacitor
  | "E"%char => Some CPE
  | "W"%char => Some Warburg
  | _ => None
  end.

(** The value of a decimal digit, by its character code. *)
Definition digit_of (c : ascii) : option nat :=
  let code := nat_of_ascii c in
  if decide (48 ≤ code ∧ code ≤ 57)%nat then Some (code - 48)%nat else None.

(** Lexemes: a token [<Type>_<index>], the series combinator [-], the
    sub-parameter separator [/], the branch separator [,], and the
    parallel brackets [p(] and [)]. *)
Inductive lexeme : Type :=
  | LElem (ty : elem_type) (idx : nat)
  | LDash
  | LSlash
  | LComma
  | LOpen
  | LClose.

Definition punct_of (c : ascii) : option lexeme :=
  match c with
  | "-"%char => Some LDash
  | "/"%char => Some LSlash
  | ","%char => Some LComma
  | ")"%char => Some LClose
  | _ => None
  end.

(** The token being read: its type and the digits of its index so far. *)
Definition pending : Type := option (elem_type * option nat).

Definition flush (p : pending) : result (list lexeme) :=
  match p with
  | None => mret []
  | Some (ty, Some n) => mret [LElem ty n]
  | Some (_, None) => mthrow (MalformedCircuitError "element without index")
  end.

Fixpoint lex (p : pending) (s : string) : result (list lexeme) :=
  match s with
  | EmptyString => flush p
  | String c s' =>
      match digit_of c with
      | Some d =>
          match p with
          | Some (ty, on) => lex (Some (ty, Some (10 * default 0 on + d))) s'
          | None => mthrow (MalformedCircuitError "index without element")
          end
      | None =>
          done ← flush p;
          match punct_of c with
          | Some l => rest ← lex None s'; mret (done ++ l :: rest)
          | None =>
              if decide (c = "p"%char) then
                match s' with
                | String "("%char s'' =>
                    rest ← lex None s''; mret (done ++ LOpen :: rest)
                | _ => mthrow (MalformedCircuitError "p without bracket")
                end
              else
                match elem_of_letter c with
                | Some ty =>
                    match s' with
                    | String "_"%char s'' =>
                        rest ← lex (Some (ty, None)) s''; mret (done ++ rest)
                    | _ => mthrow (MalformedCircuitError "element without index")
                    end
                | None => mthrow (MalformedCircuitError "unknown element type")
                end
          end
      end
  end.

(** Tokens: the sub-parameters of one element, joined by [/], are grouped. *)
Inductive token : Type :=
  | TElement (g : list (elem_type * nat))
  | TDash
  | TComma
  | TOpen
  | TClose.

Fixpoint group (ls : list lexeme) : result (list token) :=
  match ls with
  | [] => mret []
  | LElem ty i :: ls' =>
      match ls' with
      | LSlash :: ls'' =>
          ts ← group ls'';
          match ts with
          | TElement g :: ts' => mret (TElement ((ty, i) :: g) :: ts')
          | _ => mthrow (MalformedCircuitError "dangling sub-parameter separator")
          end
      | _ => ts ← group ls'; mret (TElement [(ty, i)] :: ts)
      end
  | LSlash :: _ => mthrow (MalformedCircuitError "dangling sub-parameter separator")
  | LDash :: ls' => ts ← group ls'; mret (TDash :: ts)
  | LComma :: ls' => ts ← group ls'; mret (TComma :: ts)
  | LOpen :: ls' => ts ← group ls'; mret (TOpen :: ts)
  | LClose :: ls' => ts ← group ls'; mret (TClose :: ts)
  end.

(** The parsed description (section 9 of the specification). *)
Inductive circuit : Type :=
  | Element (ty : elem_type) (idxs : list nat)
  | Series (children : list circuit)
  | Parallel (branches : list circuit).

(** An element must supply exactly the parameter count of its type. *)
Definition mk_element (g : list (elem_type * nat)) : result circuit :=
  match g with
  | [] => mthrow (MalformedCircuitError "empty element")
  | (ty, _) :: _ =>
      if decide (Forall (λ t, t.1 = ty) g ∧ length g = arity ty)
      then mret (Element ty (g.*2))
      else mthrow (MalformedCircuitError "inconsistent parameter arity")
  end.

(** One open bracket level: the finished branches and the items of the
    series being read, both most recent first. *)
Record frame : Type := mkFrame { branches_rev : list circuit; items_rev : list circuit }.

Definition mk_series (items : list circuit) : circuit :=
  match items with
  | [c] => c
  | _ => Series (reverse items)
  end.

Fixpoint parse_tokens (expect_item : bool) (cur : frame) (stack : list frame)
    (ts : list token) : result circuit :=
  match ts with
  | [] =>
      if expect_item then mthrow (MalformedCircuitError "missing element")
      else match stack with
           | [] => mret (mk_series (items_rev cur))
           | _ => mthrow (MalformedCircuitError "unmatched bracket")
           end
  | t :: ts' =>
      match t, expect_item with
      | TElement g, true =>
          el ← mk_element g;
          parse_tokens false (mkFrame (branches_rev cur) (el :: items_rev cur)) stack ts'
      | TOpen, true => parse_tokens true (mkFrame [] []) (cur :: stack) ts'
      | TDash, false => parse_tokens true cur stack ts'
      | TComma, false =>
          match stack with
          | [] => mthrow (MalformedCircuitError "branch separator outside p")
          | _ =>
              parse_tokens true
                (mkFrame (mk_series (items_rev cur) :: branches_rev cur) []) stack ts'
          end
      | TClose, false =>
          match stack with
          | [] => mthrow (MalformedCircuitError "unmatched bracket")
          | outer :: stack' =>
              let par :=
                Parallel (reverse (mk_series (items_rev cur) :: branches_rev cur)) in
              parse_tokens false
                (mkFrame (branches_rev outer) (par :: items_rev outer)) stack' ts'
          end
      | _, _ => mthrow (MalformedCircuitError "unexpected token")
      end
  end.

(** Modelled from the spec: the parser of description strings (in
    [eisfit/fitting.py], absent), following section 3: series [-],
    parallel [p(...)] with comma-separated branches, element tokens
    [<Type>_<index>], sub-parameters joined by [/]. *)
Definition parse (description : string) : result circuit :=
  ls ← lex None description;
  ts ← group ls;
  parse_tokens true (mkFrame [] []) [] ts.

(** The parameter count a parsed description requires. *)
Fixpoint circuit_length (c : circuit) : nat :=
  match c with
  | Element ty _ => arity ty
  | Series cs => foldr (λ c n, circuit_length c + n) 0 cs
  | Parallel bs => foldr (λ c n, circuit_length c + n) 0 bs
  end.

(** Modelled from the spec: [parameterCount], the body of
    [calculateCircuitLength] (in [eisfit/fitting.py], absent): parse the
    description and return the total required parameter count. *)
Definition parameterCount (description : string) : result nat :=
  t ← parse description; mret (circuit_length t).

(** The elements of a description, left to right, depth first. *)
Fixpoint elements (c : circuit) : list elem_type :=
  match c with
  | Element ty _ => [ty]
  | Series cs => foldr (λ c l, elements c ++ l) [] cs
  | Parallel bs => foldr (λ c l, elements c ++ l) [] bs
  end.

(** The parameters a lexeme, a token and an open bracket level account
    for. *)
Definition lexeme_params (l : lexeme) : nat :=
  match l with LElem _ _ => 1 | _ => 0 end.

Definition token_params (t : token) : nat :=
  match t with TElement g => length g | _ => 0 end.

Definition frame_length (fr : frame) : nat :=
  sum_list_with circuit_length (branches_rev fr) +
  sum_list_with circuit_length (items_rev fr).

(** The outermost bracket level never holds finished branches. *)
Definition bottom_clear (cur : frame) (stack : list frame) : Prop :=
  branches_rev (default cur (last stack)) = [].

(** *** Evaluation *)

Section Evaluate.
Local Open Scope R_scope.

(** The specification leaves the Warburg formula open (semi-infinite
    [sigma / sqrt (j w)] or a finite-length variant using the second
    parameter); it is a parameter here: first parameter, second
    parameter, angular frequency. *)
Variable warburg : R → R → R → C.

(** Impedance of one element at angular frequency [w], taking its
    parameters from the front of the parameter vector. *)
Definition element_impedance (ty : elem_type) (ps : list R) (w : R)
    : result (C * list R) :=
  match ty, ps with
  | Resistor, r :: ps' => mret (Cplx.of_real r, ps')
  | Capacitor, c :: ps' =>
      mret (Cplx.inv (Cplx.mul (mkC 0 w) (Cplx.of_real c)), ps')
  | CPE, q :: alpha :: ps' =>
      mret (Cplx.inv (Cplx.mul (Cplx.of_real q) (Cplx.jw_pow w alpha)), ps')
  | Warburg, sigma :: x :: ps' => mret (warburg sigma x w, ps')
  | _, _ => mthrow (ParameterArityError "not enough parameters")
  end.

(** Series: the sum.  Parallel: [1 / (1/Z1 + ... + 1/Zn)]. *)
Definition series (zs : list C) : C := Cplx.sum zs.
Definition parallel (zs : list C) : C := Cplx.inv (Cplx.sum (Cplx.inv <$> zs)).

Fixpoint eval (c : circuit) (ps : list R) (w : R) : result (C * list R) :=
  match c with
  | Element ty _ => element_impedance ty ps w
  | Series cs =>
      '(zs, ps') ←
        (fix go (cs : list circuit) (ps : list R) : result (list C * list R) :=
           match cs with
           | [] => mret ([], ps)
           | c :: cs' =>
               '(z, ps1) ← eval c ps w;
               '(zs, ps2) ← go cs' ps1;
               mret (z :: zs, ps2)
           end) cs ps;
      mret (series zs, ps')
  | Parallel bs =>
      '(zs, ps') ←
        (fix go (cs : list circuit) (ps : list R) : result (list C * list R) :=
           match cs with
           | [] => mret ([], ps)
           | c :: cs' =>
               '(z, ps1) ← eval c ps w;
               '(zs, ps2) ← go cs' ps1;
               mret (z :: zs, ps2)
           end) bs ps;
      mret (parallel zs, ps')
  end.

(** The children of a combinator, evaluated left to right on one
    parameter vector. *)
Fixpoint eval_list (cs : list circuit) (ps : list R) (w : R)
    : result (list C * list R) :=
  match cs with
  | [] => mret ([], ps)
  | c :: cs' =>
      '(z, ps1) ← eval c ps w;
      '(zs, ps2) ← eval_list cs' ps1 w;
      mret (z :: zs, ps2)
  end.

(** Modelled from the spec: [evaluate], the body of [computeCircuit] at
    one frequency (in [eisfit/fitting.py], absent), with [w = 2 pi f];
    parameters are consumed left to right. *)
Definition evaluate (description : string) (parameters : list R)
    (frequency : R) : result C :=
  t ← parse description;
  '(z, _) ← eval t parameters (2 * PI * frequency);
  mret z.

(** Evaluation across a frequency series, independently per frequency. *)
Definition evaluate_series (description : string) (parameters : list R)
    (frequencies : list R) : result (list C) :=
  mapM (evaluate description parameters) frequencies.

(** Parameters are taken from the front of the vector: what follows the
    part an evaluation consumes is handed on untouched. *)
Definition frames (c : circuit) : Prop :=
  ∀ ps w z ps' rest,
    eval c ps w = inr (z, ps') →
    eval c (ps ++ rest) w = inr (z, ps' ++ rest).

(** A child that evaluates, on its own slice of parameters, to its
    impedance: (child, slice, impedance). *)
Definition evaluates_to (w : R) (x : circuit * list R * C) : Prop :=
  eval x.1.1 x.1.2 w = inr (x.2, []).

End Evaluate.

End Description.

(** ** Python built-ins used by the classes *)

Definition is_none (v : value) : bool :=
  match v with VNone => true | _ => false end.

(** [isinstance(v, (float, int, np.int32, np.float64))]; [bool] is a
    subclass of [int]. *)
Definition is_number (v : value) : bool :=
  match v with
  | VBool _ | VInt _ | VFloat _ => true
  | VNp int32 _ | VNp float64 _ => true
  | _ => false
  end.

(** [isinstance(v, np.ndarray)] *)
Definition is_ndarray (v : value) : bool :=
  match v with VNdarray _ _ => true | _ => false end.

Definition chars (s : string) : list value :=
  (λ c, VStr (String c EmptyString)) <$> list_ascii_of_string s.

(** The items [for i in v] runs over. *)
Definition iter_values (v : value) : result (list value) :=
  match v with
  | VList xs => mret xs
  | VNdarray dt xs => mret (VNp dt <$> xs)
  | VStr s => mret (chars s)
  | _ => mthrow (TypeError "object is not iterable")
  end.

(** [len(v)] *)
Definition len (v : value) : result nat :=
  match v with
  | VList _ | VNdarray _ _ | VStr _ => xs ← iter_values v; mret (length xs)
  | _ => mthrow (TypeError "object has no len()")
  end.

(** [v[0]] *)
Definition item0 (v : value) : result value :=
  match v with
  | VList _ | VNdarray _ _ | VStr _ =>
      xs ← iter_values v;
      match xs with
      | x :: _ => mret x
      | [] => mthrow (IndexError "index 0 is out of bounds")
      end
  | _ => mthrow (TypeError "object is not subscriptable")
  end.

(** [v.tolist()] *)
Definition tolist (v : value) : result value :=
  match v with
  | VNdarray _ xs => mret (VList xs)
  | _ => mthrow (AttributeError "tolist")
  end.

(** [range(v)], as the number of iterations. *)
Definition range (v : value) : result nat :=
  match v with
  | VInt n | VNp int32 (VInt n) | VNp int64 (VInt n) => mret (Z.to_nat n)
  | VBool b => mret (if b then 1 else 0)
  | _ => mthrow (TypeError "object cannot be interpreted as an integer")
  end.

(** [list(np.ones(n)/10)] *)
Definition uniform_guess (n : nat) : value :=
  VList (replicate n (VNp float64 (VFloat (1 / 10)))).

(** [np.square(fvec).mean()] *)
Definition mean_square (fvec : list R) : value :=
  VNp float64
    (VFloat (foldr Rplus 0%R ((λ x, x * x)%R <$> fvec) / INR (length fvec))).

(** [template.format(arg, ...)], kept as the template and its arguments:
    how Python prints a float is not modelled. *)
Record formatted : Type := Format { template : string; format_args : list value }.

(** ** Objects, effects and the collaborators *)

(** Calls that leave the module, and console output, in program order. *)
Inductive event : Type :=
  | ECircuitFit (frequencies impedance circuit initial_guess algorithm bounds : value)
  | EComputeCircuit (circuit parameters frequencies : value)
  | EMakePopulation (popsize : value) (n : Z)
  | ELeastsq (x0 Z f circuit : value)
  | EPrint (v : value).

(** The functions imported from [.fitting], [.genetic] and
    [scipy.optimize].  [make_population] is random: its first argument
    is the number of populations drawn before. [leastsq] stands for the
    call [leastsq(residuals, x0, args=(Z, f, circuit), maxfev=100000,
    ftol=1E-13, full_output=True)] and yields [p_values] and
    [infodict['fvec']]. *)
Class Externals : Type := {
  circuit_fit :
    value → value → value → value → value → value → result (value * value);
  computeCircuit : value → value → value → result value;
  calculateCircuitLength : value → result nat;
  make_population : nat → value → Z → result (list value);
  leastsq : value → value → value → value → result (value * list R);
}.

(** The instance [self] (its [__dict__]) and the state of the random
    source. *)
Record store : Type := mkStore { attrs : gmap string value; draws : nat }.

Record outcome (A : Type) : Type :=
  mkOutcome { out_store : store; out_trace : list event; out_result : result A }.
Arguments mkOutcome {A} _ _ _.
Arguments out_store {A} _.
Arguments out_trace {A} _.
Arguments out_result {A} _.

(** A method body: it transforms the store, emits events and returns a
    value or raises. *)
Definition M (A : Type) : Type := store → outcome A.

Definition ret {A : Type} (a : A) : M A := λ s, mkOutcome s [] (inr a).

Definition bind {A B : Type} (m : M A) (k : A → M B) : M B := λ s,
  match m s with
  | mkOutcome s1 t1 (inl e) => mkOutcome s1 t1 (inl e)
  | mkOutcome s1 t1 (inr a) =>
      match k a s1 with
      | mkOutcome s2 t2 r => mkOutcome s2 (t1 ++ t2) r
      end
  end.

Definition raise {A : Type} (e : exn) : M A := λ s, mkOutcome s [] (inl e).

#[global] Instance M_ret : MRet M := @ret.
#[global] Instance M_bind : MBind M := λ A B k m, bind m k.
#[global] Instance M_throw : MThrow exn M := @raise.

Definition lift {A : Type} (r : result A) : M A := λ s, mkOutcome s [] r.

Definition emit (ev : event) : M unit := λ s, mkOutcome s [ev] (inr ()).

(** [self.name] *)
Definition getattr (name : string) : M value := λ s,
  match attrs s !! name with
  | Some v => mkOutcome s [] (inr v)
  | None => mkOutcome s [] (inl (AttributeError name))
  end.

(** [self.name = v] *)
Definition setattr (name : string) (v : value) : M unit := λ s,
  mkOutcome (mkStore (<[name := v]> (attrs s)) (draws s)) [] (inr ()).

(** [assert cond, msg] *)
Definition assert (cond : bool) (msg : string) (args : list value) : M unit :=
  if cond then ret () else raise (AssertionError msg args).

(** [print(v)] *)
Definition print (v : value) : M unit := emit (EPrint v).

(** A freshly allocated instance, before [__init__] runs. *)
Definition new_object (draws : nat) : store := mkStore ∅ draws.

Section Classes.
Context `{Externals}.

Definition call_circuit_fit (frequencies impedance circuit initial_guess
    algorithm bounds : value) : M (value * value) :=
  emit (ECircuitFit frequencies impedance circuit initial_guess algorithm bounds);;
  lift (circuit_fit frequencies impedance circuit initial_guess algorithm bounds).

Definition call_computeCircuit (circuit parameters frequencies : value)
    : M value :=
  emit (EComputeCircuit circuit parameters frequencies);;
  lift (computeCircuit circuit parameters frequencies).

Definition call_make_population (popsize : value) (n : Z) : M (list value) :=
  λ s,
  mkOutcome (mkStore (attrs s) (S (draws s))) [EMakePopulation popsize n]
    (make_population (draws s) popsize n).

Definition call_leastsq (x0 Z f circuit : value) : M (value * list R) :=
  emit (ELeastsq x0 Z f circuit);;
  lift (leastsq x0 Z f circuit).

(** The loop [for i in initial_guess: assert isinstance(i, ...), ...] *)
Fixpoint assert_numbers (items : list value) : M unit :=
  match items with
  | [] => ret ()
  | i :: rest =>
      assert (is_number i) "value {} in initial_guess is not a number" [i];;
      assert_numbers rest
  end.

Definition check_initial_guess (initial_guess : value) : M unit :=
  if is_none initial_guess then ret ()
  else items ← lift (iter_values initial_guess); assert_numbers items.

(** [assert len(initial_guess) == circuit_length, ...]; the message is a
    plain string, its braces are not interpolated. *)
Definition assert_guess_length (initial_guess : value) (circuit_length : nat)
    : M unit :=
  n ← lift (len initial_guess);
  assert (bool_decide (n = circuit_length))
    "Initial guess length needs to be equal to {circuit_length}" [].

End Classes.

(** ** class BaseCircuit *)

Module BaseCircuit.
Section Methods.
Context `{Externals}.

(** Defaults: [initial_guess=None, algorithm='leastsq', bounds=None];
    [algorithm] is accepted and not stored. *)
Definition __init__ (initial_guess algorithm bounds : value) : M unit :=
  check_initial_guess initial_guess;;
  setattr "initial_guess" initial_guess;;
  setattr "parameters_" VNone;;
  setattr "bounds" bounds.

Definition fit (frequencies impedance : value) : M unit :=
  assert (is_ndarray frequencies) "" [];;
  n ← lift (len frequencies);
  m ← lift (len impedance);
  assert (bool_decide (n = m)) "" [];;
  f0 ← lift (item0 frequencies);
  assert (is_number f0) "frequencies does not contain a number" [];;
  guess ← getattr "initial_guess";
  if negb (is_none guess) then
    circuit ← getattr "circuit";
    initial_guess ← getattr "initial_guess";
    algorithm ← getattr "algorithm";
    bounds ← getattr "bounds";
    '(parameters, _) ←
      call_circuit_fit frequencies impedance circuit initial_guess algorithm bounds;
    setattr "parameters_" parameters
  else
    raise (ValueError "no initial guess supplied").

Definition _is_fit : M bool :=
  parameters ← getattr "parameters_";
  if negb (is_none parameters) then ret true else ret false.

Definition predict (frequencies : value) : M value :=
  fitted ← _is_fit;
  if (fitted : bool) then
    circuit ← getattr "circuit";
    parameters ← getattr "parameters_";
    ps ← lift (tolist parameters);
    fs ← lift (tolist frequencies);
    call_computeCircuit circuit ps fs
  else
    raise (ValueError "The model hasn't been fit yet").

(** The two string literals continue over a line break, so the
    indentation of the second line is part of them. *)
Definition __repr__ : M formatted :=
  fitted ← _is_fit;
  if (fitted : bool) then
    name ← getattr "name";
    parameters ← getattr "parameters_";
    circuit ← getattr "circuit";
    ret (Format "{} circuit (fit values={},                     circuit={})"
           [name; parameters; circuit])
  else
    name ← getattr "name";
    initial_guess ← getattr "initial_guess";
    circuit ← getattr "circuit";
    ret (Format "{} circuit (initial_guess={},                     circuit={})"
           [name; initial_guess; circuit]).

End Methods.
End BaseCircuit.

(** ** class Randles(BaseCircuit) *)

Module Randles.
Section Methods.
Context `{Externals}.

Definition circuit_CPE : string := "R_0-p(R_1,E_1/E_2)-W_1/W_2".
Definition circuit_plain : string := "R_0-p(R_1,C_1)-W_1/W_2".

(** Defaults: [initial_guess=None, CPE=False, algorithm='leastsq',
    bounds=None]. *)
Definition __init__ (initial_guess : value) (CPE : bool)
    (algorithm bounds : value) : M unit :=
  setattr "name" (VStr "Randles");;
  setattr "parameters_" VNone;;
  setattr "initial_guess" initial_guess;;
  setattr "algorithm" algorithm;;
  setattr "bounds" bounds;;
  check_initial_guess initial_guess;;
  if CPE then
    setattr "circuit" (VStr circuit_CPE);;
    circuit ← getattr "circuit";
    circuit_length ← lift (calculateCircuitLength circuit);
    assert_guess_length initial_guess circuit_length
  else
    setattr "circuit" (VStr circuit_plain);;
    circuit ← getattr "circuit";
    circuit_length ← lift (calculateCircuitLength circuit);
    assert_guess_length initial_guess circuit_length.

End Methods.
End Randles.

(** ** class DefineCircuit(BaseCircuit) *)

Module DefineCircuit.
Section Methods.
Context `{Externals}.

(** Defaults: [initial_guess=None, circuit=None, algorithm='leastsq',
    bounds=None]. *)
Definition __init__ (initial_guess circuit algorithm bounds : value) : M unit :=
  setattr "name" (VStr "Custom");;
  setattr "parameters_" VNone;;
  setattr "initial_guess" initial_guess;;
  setattr "circuit" circuit;;
  setattr "algorithm" algorithm;;
  setattr "bounds" bounds;;
  if negb (is_none initial_guess) then
    items ← lift (iter_values initial_guess);
    assert_numbers items;;
    circuit ← getattr "circuit";
    circuit_length ← lift (calculateCircuitLength circuit);
    assert_guess_length initial_guess circuit_length
  else ret ().

End Methods.
End DefineCircuit.

(** ** class FlexiCircuit(BaseCircuit) *)

Module FlexiCircuit.
Section Methods.
Context `{Externals}.

(** Defaults: [max_elements=None, generations=2, popsize=30,
    initial_guess=None].  The base constructor is not called. *)
Definition __init__ (max_elements generations popsize initial_guess : value)
    : M unit :=
  setattr "name" (VStr "Flexible Circuit");;
  setattr "initial_guess" initial_guess;;
  setattr "generations" generations;;
  setattr "popsize" popsize;;
  setattr "max_elements" max_elements.

(** The body of [for pop in self.population], for the candidates still
    to visit; [scores] is the local list being appended to. *)
Fixpoint score_population (Z f : value) (pops : list value)
    (scores : list value) : M (list value) :=
  match pops with
  | [] => ret scores
  | pop :: rest =>
      setattr "circuit" pop;;
      circuit ← getattr "circuit";
      print circuit;;
      circuit ← getattr "circuit";
      circuit_length ← lift (calculateCircuitLength circuit);
      setattr "initial_guess" (uniform_guess circuit_length);;
      x0 ← getattr "initial_guess";
      circuit ← getattr "circuit";
      '(p_values, fvec) ← call_leastsq x0 Z f circuit;
      print p_values;;
      score_population Z f rest (scores ++ [VList [mean_square fvec; pop]])
  end.

(** The body of [for i in range(self.generations)], for the iterations
    still to run; [scores] is [None] while the local is unbound. *)
Fixpoint generations_loop (Z f : value) (k : nat)
    (scores : option (list value)) : M (option (list value)) :=
  match k with
  | 0 => ret scores
  | S k' =>
      popsize ← getattr "popsize";
      population ← call_make_population popsize 5;
      setattr "population" (VList population);;
      population ← getattr "population";
      pops ← lift (iter_values population);
      scores ← score_population Z f pops [];
      generations_loop Z f k' (Some scores)
  end.

Definition fit (frequencies impedances : value) : M value :=
  let f := frequencies in
  let Z := impedances in
  generations ← getattr "generations";
  k ← lift (range generations);
  scores ← generations_loop Z f k None;
  match scores with
  | None => raise (UnboundLocalError "scores")
  | Some scores => print (VList scores);; ret (VList scores)
  end.

End Methods.
End FlexiCircuit.

(** ** Notions used in the statements *)

(** [self.name = v] on a store. *)
Definition with_attr (name : string) (v : value) (s : store) : store :=
  mkStore (<[name := v]> (attrs s)) (draws s).

(** The arguments pass the three input assertions of [BaseCircuit.fit]. *)
Definition valid_fit_inputs (frequencies impedance : value) : bool :=
  is_ndarray frequencies &&
  match len frequencies with
  | inr n =>
      match len impedance with
      | inr m =>
          bool_decide (n = m) &&
          match item0 frequencies with
          | inr f0 => is_number f0
          | inl _ => false
          end
      | inl _ => false
      end
  | inl _ => false
  end.

(** The outcome of the numeric-type loop over a guess, as a function of
    the guess alone. *)
Fixpoint numbers_check (items : list value) : result unit :=
  match items with
  | [] => inr ()
  | i :: rest =>
      if is_number i then numbers_check rest
      else inl (AssertionError "value {} in initial_guess is not a number" [i])
  end.

Definition guess_check (guess : value) : result unit :=
  if is_none guess then inr ()
  else items ← iter_values guess; numbers_check items.

Definition guess_length_check (guess : value) (circuit_length : nat)
    : result unit :=
  n ← len guess;
  if bool_decide (n = circuit_length) then inr ()
  else inl (AssertionError
              "Initial guess length needs to be equal to {circuit_length}" []).

(** The description the Randles constructor stores. *)
Definition Randles_circuit (CPE : bool) : string :=
  if CPE then Randles.circuit_CPE else Randles.circuit_plain.

(** The candidates handed to [leastsq], in order, and the last of them. *)
Definition evaluated (tr : list event) : list value :=
  omap (λ ev, match ev with ELeastsq _ _ _ c => Some c | _ => None end) tr.

Definition last_evaluated (tr : list event) : option value :=
  last (evaluated tr).

(** A [[score, candidate]] entry, and a value made of [g] batches of at
    most [p] such entries. *)
Definition scored_pair (v : value) : Prop :=
  ∃ score candidate, v = VList [score; candidate].

Definition is_batches (g p : nat) (v : value) : Prop :=
  ∃ batches,
    v = VList batches ∧ length batches = g ∧
    Forall (λ b, ∃ pairs, b = VList pairs ∧ (length pairs ≤ p)%nat ∧
                          Forall scored_pair pairs) batches.

Section Reference.
Context `{Externals}.

(** What one pass of the inner loop appends for a candidate, as a
    function of the candidate: its parameter count, the fit from the
    uniform guess, the mean squared residual. *)
Definition score_candidate (Z f pop : value) : result value :=
  n ← calculateCircuitLength pop;
  '(_, fvec) ← leastsq (uniform_guess n) Z f pop;
  mret (VList [mean_square fvec; pop]).

(** The scored candidates of one generation. *)
Definition batch (Z f : value) (pops : list value) : result (list value) :=
  mapM (score_candidate Z f) pops.

Definition leastsq_returns (ev : event) : Prop :=
  match ev with
  | ELeastsq x0 Z f c => ∃ r, leastsq x0 Z f c = inr r
  | _ => True
  end.

(** A run whose last event is a [leastsq] call that raised, the run
    raising the same exception. *)
Definition aborted_by_leastsq {A : Type} (o : outcome A) : Prop :=
  ∃ pre x0 Z f c e,
    out_trace o = pre ++ [ELeastsq x0 Z f c] ∧
    Forall leastsq_returns pre ∧
    leastsq x0 Z f c = inl e ∧
    out_result o = inl e.

Definition fail_stop {A : Type} (o : outcome A) : Prop :=
  Forall leastsq_returns (out_trace o) ∨ aborted_by_leastsq o.

(** The instance holds the description and the uniform guess of the
    candidate evaluated last. *)
Definition holds_last (tr : list event) (s : store) : Prop :=
  ∀ c, last_evaluated tr = Some c →
       attrs s !! "circuit" = Some c ∧
       ∃ n, calculateCircuitLength c = inr n ∧
            attrs s !! "initial_guess" = Some (uniform_guess n).

(** The instances the constructors of [BaseCircuit], [Randles] and
    [DefineCircuit] return. *)
Inductive other_model : store → Prop :=
  | model_BaseCircuit guess algorithm bounds k o :
      o = BaseCircuit.__init__ guess algorithm bounds (new_object k) →
      out_result o = inr () → other_model (out_store o)
  | model_Randles guess CPE algorithm bounds k o :
      o = Randles.__init__ guess CPE algorithm bounds (new_object k) →
      out_result o = inr () → other_model (out_store o)
  | model_DefineCircuit guess circuit algorithm bounds k o :
      o = DefineCircuit.__init__ guess circuit algorithm bounds (new_object k) →
      out_result o = inr () → other_model (out_store o).

End Reference.

(** The two templates of [__repr__]. *)
Definition unfit_template : string :=
  "{} circuit (initial_guess={},                     circuit={})".
Definition fit_template : string :=
  "{} circuit (fit values={},                     circuit={})".

Section SearchNotions.
Context `{Externals}.


(** Each population of the list is what the generator draws in its
    turn, and all its candidates can be scored. *)
Definition generations_drawn (Z f popsize : value) (first : nat)
    (populations : list (list value)) : Prop :=
  ∀ i pops, populations !! i = Some pops →
            make_population (first + i) popsize 5 = inr pops ∧
            ∃ b, batch Z f pops = inr b.

End SearchNotions.

(** ** Concrete collaborators and inputs *)

(** Modelled from the spec: [calculateCircuitLength] (in
    [eisfit/fitting.py], absent) on a Python value, as [parameterCount]
    of a description string. *)
Definition calculateCircuitLength_spec (circuit : value) : result nat :=
  match circuit with
  | VStr description => Description.parameterCount description
  | _ => inl (TypeError "circuit description is not a string")
  end.

Definition sample_population : list value :=
  [VStr "R_0"; VStr "C_0"; VStr "R_0-C_1"].

(** A fit that returns the guess unchanged with two zero residuals, and a
    generator that always draws [sample_population]. *)
Definition sample_externals : Externals := {|
  circuit_fit := λ _ _ _ initial_guess _ _,
    inr (VNdarray float64
           (match initial_guess with VList xs => xs | _ => [] end), VNone);
  computeCircuit := λ _ _ frequencies, inr frequencies;
  calculateCircuitLength := calculateCircuitLength_spec;
  make_population := λ _ _ _, inr sample_population;
  leastsq := λ x0 _ _ _, inr (x0, [0%R; 0%R]);
|}.

(** As [scipy.optimize.leastsq] does with more parameters than residuals:
    it raises unless the guess has one parameter. *)
Definition failing_externals : Externals := {|
  circuit_fit := λ _ _ _ _ _ _, inl (ExternalError "not used");
  computeCircuit := λ _ _ _, inl (ExternalError "not used");
  calculateCircuitLength := calculateCircuitLength_spec;
  make_population := λ _ _ _, inr [VStr "R_0-C_1"; VStr "R_0"];
  leastsq := λ x0 _ _ _,
    match x0 with
    | VList [_] => inr (x0, [0%R; 0%R])
    | _ => inl (TypeError "Improper input: N=2 must not exceed M=1")
    end;
|}.

Definition sample_frequencies : value := VNdarray float64 [VFloat 1; VFloat 10].
Definition sample_impedance : value :=
  VNdarray complex128 [VComplex (mkC 5 0); VComplex (mkC 5 (-1))].
Definition default_algorithm : value := VStr "leastsq".

Definition guess_of_four : value := VList [VInt 1; VInt 1; VInt 1; VInt 1].
Definition guess_of_five : value :=
  VList [VFloat 1; VFloat 1; VFloat 1; VFloat 1; VFloat 1].
Definition guess_of_six : value :=
  VList [VInt 1; VInt 1; VInt 1; VFloat 1; VInt 1; VInt 1].

(** [DefineCircuit(circuit='R_0-C_1')], never fitted. *)
Definition unfit_model : store :=
  out_store (DefineCircuit.__init__ (H := sample_externals) VNone (VStr "R_0-C_1")
               default_algorithm VNone (new_object 0)).

(** [Randles(initial_guess=[1.0, 1.0, 1.0, 1.0, 1.0])] after [fit]. *)
Definition fitted_model : store :=
  out_store
    (BaseCircuit.fit (H := sample_externals) sample_frequencies sample_impedance
       (out_store (Randles.__init__ (H := sample_externals) guess_of_five false
                     default_algorithm VNone (new_object 0)))).

(** [FlexiCircuit(generations=g, popsize=p)] with a user-supplied guess. *)
Definition search_model (g p : Z) : store :=
  out_store (FlexiCircuit.__init__ VNone (VInt g) (VInt p) guess_of_four
               (new_object 0)).

(** The search run on the samples: two generations of three candidates
    that all fit, and one generation of two whose first candidate makes
    [leastsq] raise. *)
Definition sample_search_run : outcome value :=
  FlexiCircuit.fit (H := sample_externals) sample_frequencies sample_impedance
    (search_model 2 3).

Definition failing_search_run : outcome value :=
  FlexiCircuit.fit (H := failing_externals) sample_frequencies sample_impedance
    (search_model 1 2).

(** A resistor and a capacitor with their parameter slices and their
    impedances at [w = 3]. *)
Definition sample_children : list (Description.circuit * list R * C) :=
  [(Description.Element Description.Resistor [0%nat], [5%R], Cplx.of_real 5);
   (Description.Element Description.Capacitor [1%nat], [2%R],
    Cplx.inv (Cplx.mul (mkC 0 3) (Cplx.of_real 2)))].

(** What the sample search returns: the entries of one generation. *)
Definition sample_scores : list value :=
  [VList [mean_square [0%R; 0%R]; VStr "R_0"];
   VList [mean_square [0%R; 0%R]; VStr "C_0"];
   VList [mean_square [0%R; 0%R]; VStr "R_0-C_1"]].

(** A minimizer that does not converge, and a generator whose second
    candidate has an unknown element letter. *)
Definition stalled_externals : Externals := {|
  circuit_fit := λ _ _ _ _ _ _, inl (ExternalError "Optimal parameters not found");
  computeCircuit := λ _ _ frequencies, inr frequencies;
  calculateCircuitLength := calculateCircuitLength_spec;
  make_population := λ _ _ _, inr [VStr "R_0"; VStr "R_0-X_1"; VStr "C_0"];
  leastsq := λ x0 _ _ _, inr (x0, [0%R; 0%R]);
|}.

(** [Randles(initial_guess=[1.0, 1.0, 1.0, 1.0, 1.0])] before [fit], and
    what the sample minimizer returns for it. *)
Definition randles_model : store :=
  out_store (Randles.__init__ (H := sample_externals) guess_of_five false
               default_algorithm VNone (new_object 0)).

Definition fitted_parameters : value :=
  VNdarray float64 [VFloat 1; VFloat 1; VFloat 1; VFloat 1; VFloat 1].

(** [BaseCircuit(initial_guess=[1.0, 1.0, 1.0, 1.0, 1.0])]. *)
Definition base_model : store :=
  out_store (BaseCircuit.__init__ guess_of_five default_algorithm VNone
               (new_object 0)).

Definition int64_frequencies : value := VNdarray int64 [VInt 1; VInt 10].

(** The search model with other [max_elements] and [initial_guess]. *)
Definition other_search_model : store :=
  with_attr "max_elements" (VInt 7)
    (with_attr "initial_guess" VNone (search_model 2 3)).

(** * Proof automation for method bodies *)

Ltac unfold_M :=
  unfold mbind, M_bind, bind, mret, M_ret, ret, mthrow, M_throw, raise,
         lift, emit, print, assert, getattr, setattr in *.

Ltac run_step :=
  first [ rewrite lookup_insert_eq
        | rewrite lookup_insert_ne by done
        | progress cbn -[lookup insert FlexiCircuit.score_population
                         FlexiCircuit.generations_loop] ].

(** Run a method body as far as the store is known. *)
Ltac run := unfold_M; repeat run_step.

Ltac finish :=
  repeat split; try (eexists; reflexivity); try (intros; discriminate); try done.

(** Case on the first computation of a bind that returned. *)
Ltac bind_case H :=
  match goal with
  | |- (?m ≫= _) = inr _ → _ =>
      destruct m eqn:H; cbn [mbind result_bind rbind mret result_ret];
      [discriminate |]
  end.

(** * Properties of the description language *)

Lemma C_eq (a b : C) : Cplx.re a = Cplx.re b → Cplx.im a = Cplx.im b → a = b.
Proof. destruct a, b; simpl; intros -> ->; reflexivity. Qed.

Module DescriptionFacts.
Import Description.

Section circuit_induction.
Variable P : circuit → Prop.
Hypothesis HElement : ∀ ty idxs, P (Element ty idxs).
Hypothesis HSeries : ∀ cs, Forall P cs → P (Series cs).
Hypothesis HParallel : ∀ bs, Forall P bs → P (Parallel bs).

Lemma circuit_ind_nested : ∀ c, P c.
Proof.
  fix IH 1. intros [ty idxs | cs | bs].
  - apply HElement.
  - apply HSeries. induction cs as [| c cs IHcs]; constructor; [apply IH | exact IHcs].
  - apply HParallel. induction bs as [| c bs IHbs]; constructor; [apply IH | exact IHbs].
Qed.
End circuit_induction.

Lemma circuit_length_elements (c : circuit) :
  circuit_length c = sum_list_with arity (elements c).
Proof.
  induction c as [ty idxs | cs IH | bs IH] using circuit_ind_nested; simpl.
  - lia.
  - induction IH as [| c cs Hc _ IHcs]; simpl; [reflexivity |].
    rewrite sum_list_with_app. congruence.
  - induction IH as [| c bs Hc _ IHbs]; simpl; [reflexivity |].
    rewrite sum_list_with_app. congruence.
Qed.

Lemma parse_randles_plain :
  parse "R_0-p(R_1,C_1)-W_1/W_2" =
    inr (Series [Element Resistor [0];
                 Parallel [Element Resistor [1]; Element Capacitor [1]];
                 Element Warburg [1; 2]]).
Proof. reflexivity. Qed.

Lemma parse_randles_CPE :
  parse "R_0-p(R_1,E_1/E_2)-W_1/W_2" =
    inr (Series [Element Resistor [0];
                 Parallel [Element Resistor [1]; Element CPE [1; 2]];
                 Element Warburg [1; 2]]).
Proof. reflexivity. Qed.

(** *** Parameter tokens *)

Lemma circuit_length_Series cs :
  circuit_length (Series cs) = sum_list_with circuit_length cs.
Proof. simpl. by rewrite sum_list_with_foldr. Qed.

Lemma circuit_length_Parallel bs :
  circuit_length (Parallel bs) = sum_list_with circuit_length bs.
Proof. simpl. by rewrite sum_list_with_foldr. Qed.

Lemma circuit_length_mk_series items :
  circuit_length (mk_series items) = sum_list_with circuit_length items.
Proof.
  unfold mk_series.
  destruct items as [| c [| c' items]];
    rewrite ?circuit_length_Series, ?sum_list_with_reverse; simpl; lia.
Qed.

Lemma mk_element_length g el :
  mk_element g = inr el → circuit_length el = length g.
Proof.
  unfold mk_element. destruct g as [| [ty i] g]; [discriminate |].
  case_decide as Hg; [| discriminate].
  intros [= <-]. destruct Hg as [_ Hlen]. simpl in *. lia.
Qed.

Lemma group_params n :
  ∀ ls ts, (length ls ≤ n)%nat → group ls = inr ts →
           sum_list_with token_params ts = sum_list_with lexeme_params ls.
Proof.
  induction n as [| n IH]; intros ls ts Hn.
  { destruct ls; [| simpl in Hn; lia]. intros [= <-]. reflexivity. }
  destruct ls as [| l ls]; [intros [= <-]; reflexivity |].
  simpl in Hn.
  destruct l; cbn [group]; try discriminate.
  - destruct ls as [| l' ls'].
    + cbn. intros [= <-]. reflexivity.
    + destruct l'; cbv beta iota.
      1, 2, 4, 5, 6:
        bind_case Hts'; intros [= <-];
        cbn [sum_list_with token_params lexeme_params length];
        apply IH in Hts'; [| cbn [length] in *; lia]; rewrite Hts'; reflexivity.
      bind_case Hts'.
      match goal with
      | |- match ?l with _ => _ end = _ → _ =>
          destruct l as [| [g | | | |] ts'']; try discriminate
      end.
      intros [= <-].
      apply IH in Hts'; [| cbn [length] in *; lia].
      cbn in *. lia.
  - bind_case Hts'. intros [= <-]. cbn. apply IH; [lia | done].
  - bind_case Hts'. intros [= <-]. cbn. apply IH; [lia | done].
  - bind_case Hts'. intros [= <-]. cbn. apply IH; [lia | done].
  - bind_case Hts'. intros [= <-]. cbn. apply IH; [lia | done].
Qed.

Lemma parse_tokens_length ts :
  ∀ expect_item cur stack t,
    bottom_clear cur stack →
    parse_tokens expect_item cur stack ts = inr t →
    circuit_length t =
      frame_length cur + sum_list_with frame_length stack +
      sum_list_with token_params ts.
Proof.
  induction ts as [| tok ts IH]; intros expect_item cur stack t Hbottom.
  - cbn. destruct expect_item; [discriminate |].
    destruct stack; [| discriminate]. intros [= <-].
    destruct cur as [bs items]. unfold bottom_clear in Hbottom. cbn in Hbottom.
    subst bs. unfold frame_length. cbn.
    rewrite circuit_length_mk_series. lia.
  - cbn [parse_tokens].
    destruct tok as [g | | | |], expect_item; try discriminate.
    + destruct (mk_element g) as [e | el] eqn:Hel; cbn; [discriminate |].
      intros Hparse. apply IH in Hparse.
      * rewrite Hparse. unfold frame_length. cbn.
        rewrite (mk_element_length _ _ Hel). lia.
      * unfold bottom_clear in *. destruct (last stack); [exact Hbottom |].
        exact Hbottom.
    + intros Hparse. apply IH in Hparse; [rewrite Hparse; cbn; lia |].
      exact Hbottom.
    + destruct stack as [| outer stack]; [discriminate |].
      intros Hparse. apply IH in Hparse.
      * rewrite Hparse. unfold frame_length. cbn.
        rewrite circuit_length_mk_series. lia.
      * unfold bottom_clear in *. rewrite last_cons in *.
        destruct (last stack); exact Hbottom.
    + intros Hparse. apply IH in Hparse.
      * rewrite Hparse. unfold frame_length. cbn. lia.
      * unfold bottom_clear in *. rewrite last_cons.
        destruct (last stack) as [fr |] eqn:Hlast; cbn in *; exact Hbottom.
    + destruct stack as [| outer stack]; [discriminate |].
      intros Hparse. apply IH in Hparse.
      * rewrite Hparse. unfold frame_length.
        cbn [branches_rev items_rev sum_list_with].
        rewrite circuit_length_Parallel, sum_list_with_reverse.
        cbn [sum_list_with token_params]. rewrite circuit_length_mk_series. lia.
      * unfold bottom_clear in *. rewrite last_cons in Hbottom.
        destruct (last stack); exact Hbottom.
Qed.

Lemma parameterCount_counts_tokens description ls n :
  lex None description = inr ls →
  parameterCount description = inr n →
  n = sum_list_with lexeme_params ls.
Proof.
  intros Hlex. unfold parameterCount, parse. rewrite Hlex. cbn.
  destruct (group ls) as [e | ts] eqn:Hts; cbn; [discriminate |].
  destruct (parse_tokens true (mkFrame [] []) [] ts) as [e | t] eqn:Ht; cbn;
    [discriminate |].
  intros [= <-].
  rewrite (parse_tokens_length _ true (mkFrame [] []) [] t
             (eq_refl : bottom_clear (mkFrame [] []) []) Ht). cbn.
  apply (group_params (length ls)); [lia | exact Hts].
Qed.

(** C2: on every well-formed description [parameterCount] returns one
    value, the sum of the arities of the description's elements (R and C
    count 1, E and W count 2), which is also the number of parameter
    tokens the description holds; on ["R_0-p(R_1,C_1)-W_1/W_2"] it
    returns 5. *)
Theorem parameterCount_sum_of_arities :
  (∀ (description : string) (t : circuit),
      parse description = inr t →
      parameterCount description = inr (sum_list_with arity (elements t)) ∧
      (∀ n, parameterCount description = inr n →
            n = sum_list_with arity (elements t)) ∧
      (∀ ls, lex None description = inr ls →
             sum_list_with arity (elements t) = sum_list_with lexeme_params ls)) ∧
  parameterCount "R_0-p(R_1,C_1)-W_1/W_2" = inr 5.
Proof.
  split; [| reflexivity].
  intros description t Hparse.
  assert (Hcount : parameterCount description
                   = inr (sum_list_with arity (elements t))).
  { unfold parameterCount. rewrite Hparse. simpl.
    unfold mret, result_ret. f_equal. apply circuit_length_elements. }
  split; [exact Hcount |]. split.
  - intros n Hn. rewrite Hcount in Hn. congruence.
  - intros ls Hlex. exact (parameterCount_counts_tokens _ _ _ Hlex Hcount).
Qed.

Lemma parameterCount_sum_of_arities_witness :
  parse "R_0-p(R_1,E_1/E_2)-W_1/W_2" =
    inr (Series [Element Resistor [0];
                 Parallel [Element Resistor [1]; Element CPE [1; 2]];
                 Element Warburg [1; 2]]) ∧
  parameterCount "R_0-p(R_1,E_1/E_2)-W_1/W_2" = inr (1 + (1 + 2) + 2).
Proof.
  split; [reflexivity |].
  exact (proj1 (proj1 parameterCount_sum_of_arities _ _ parse_randles_CPE)).
Defined.

(** *** Evaluation *)

Section EvaluateFacts.
Local Open Scope R_scope.
Variable warburg : R → R → R → C.

Lemma eval_Series cs ps w :
  eval warburg (Series cs) ps w =
    (eval_list warburg cs ps w ≫= λ '(zs, ps'), mret (series zs, ps')).
Proof.
  simpl. f_equal. revert ps.
  induction cs as [| c cs IH]; intros ps; simpl; [reflexivity |].
  destruct (eval warburg c ps w) as [e | [z ps1]]; simpl; [reflexivity |].
  rewrite IH. reflexivity.
Qed.

Lemma eval_Parallel bs ps w :
  eval warburg (Parallel bs) ps w =
    (eval_list warburg bs ps w ≫= λ '(zs, ps'), mret (parallel zs, ps')).
Proof.
  simpl. f_equal. revert ps.
  induction bs as [| c bs IH]; intros ps; simpl; [reflexivity |].
  destruct (eval warburg c ps w) as [e | [z ps1]]; simpl; [reflexivity |].
  rewrite IH. reflexivity.
Qed.

Lemma element_impedance_frame ty ps w z ps' rest :
  element_impedance warburg ty ps w = inr (z, ps') →
  element_impedance warburg ty (ps ++ rest) w = inr (z, ps' ++ rest).
Proof.
  destruct ty, ps as [| p1 [| p2 ps]]; simpl; intros Heq;
    try discriminate; injection Heq as <- <-; reflexivity.
Qed.

Lemma eval_list_frame cs :
  Forall (frames warburg) cs →
  ∀ ps w zs ps' rest,
    eval_list warburg cs ps w = inr (zs, ps') →
    eval_list warburg cs (ps ++ rest) w = inr (zs, ps' ++ rest).
Proof.
  induction 1 as [| c cs Hc _ IH]; intros ps w zs ps' rest; simpl.
  - intros [= <- <-]. reflexivity.
  - destruct (eval warburg c ps w) as [e | [z ps1]] eqn:Hev; simpl; [discriminate |].
    destruct (eval_list warburg cs ps1 w) as [e | [zs1 ps2]] eqn:Hevl; simpl;
      [discriminate |].
    intros [= <- <-].
    rewrite (Hc _ _ _ _ rest Hev). simpl.
    rewrite (IH _ _ _ _ rest Hevl). reflexivity.
Qed.

Lemma eval_frame c : frames warburg c.
Proof.
  induction c as [ty idxs | cs IH | bs IH] using circuit_ind_nested;
    intros ps w z ps' rest.
  - apply element_impedance_frame.
  - rewrite !eval_Series.
    destruct (eval_list warburg cs ps w) as [e | [zs ps1]] eqn:Hevl; simpl;
      [discriminate |].
    intros [= <- <-].
    rewrite (eval_list_frame cs IH _ _ _ _ rest Hevl). reflexivity.
  - rewrite !eval_Parallel.
    destruct (eval_list warburg bs ps w) as [e | [zs ps1]] eqn:Hevl; simpl;
      [discriminate |].
    intros [= <- <-].
    rewrite (eval_list_frame bs IH _ _ _ _ rest Hevl). reflexivity.
Qed.

Lemma eval_list_slices w (l : list (circuit * list R * C)) rest :
  Forall (evaluates_to warburg w) l →
  eval_list warburg (l.*1.*1) (concat (l.*1.*2) ++ rest) w = inr (l.*2, rest).
Proof.
  induction 1 as [| [[c ps] z] l Hc _ IH]; [reflexivity |].
  unfold evaluates_to in Hc. simpl in Hc.
  rewrite !fmap_cons. cbn [concat eval_list fst snd].
  rewrite <- app_assoc.
  rewrite (eval_frame c _ _ _ _ (concat (l.*1.*2) ++ rest) Hc).
  cbn [mbind result_bind rbind app]. rewrite IH. reflexivity.
Qed.

End EvaluateFacts.

(** C1: at every frequency a series combination evaluates to the sum of
    its sub-impedances and a parallel combination to the reciprocal of
    the sum of their reciprocals; ["R_0-R_1"] with [5, 10] gives [15+0j]
    and ["p(R_0,R_1)"] with [10, 10] gives [5+0j] at any frequency. *)
Theorem evaluate_series_sum_parallel_reciprocal (warburg : R → R → R → C) :
  (∀ (w : R) (l : list (circuit * list R * C)) (rest : list R),
      Forall (evaluates_to warburg w) l →
      eval warburg (Series (l.*1.*1)) (concat (l.*1.*2) ++ rest) w
        = inr (Cplx.sum (l.*2), rest) ∧
      eval warburg (Parallel (l.*1.*1)) (concat (l.*1.*2) ++ rest) w
        = inr (Cplx.inv (Cplx.sum (Cplx.inv <$> l.*2)), rest)) ∧
  (∀ f : R, evaluate warburg "R_0-R_1" [5; 10]%R f = inr (mkC 15 0)) ∧
  (∀ f : R, evaluate warburg "p(R_0,R_1)" [10; 10]%R f = inr (mkC 5 0)).
Proof.
  split; [| split].
  - intros w l rest Hl. split.
    + rewrite eval_Series, (eval_list_slices warburg w l rest Hl). reflexivity.
    + rewrite eval_Parallel, (eval_list_slices warburg w l rest Hl). reflexivity.
  - intros f. unfold evaluate.
    replace (parse "R_0-R_1")
      with (inr (Series [Element Resistor [0%nat]; Element Resistor [1%nat]])
              : result circuit) by reflexivity.
    simpl. unfold mret, result_ret. f_equal.
    apply C_eq; simpl; lra.
  - intros f. unfold evaluate.
    replace (parse "p(R_0,R_1)")
      with (inr (Parallel [Element Resistor [0%nat]; Element Resistor [1%nat]])
              : result circuit) by reflexivity.
    simpl. unfold mret, result_ret. f_equal.
    apply C_eq; cbv -[Rplus Rmult Rminus Rdiv Rinv Ropp IZR]; field.
Qed.

Lemma evaluate_series_sum_parallel_reciprocal_witness :
  Forall (evaluates_to (λ _ _ _, Cplx.zero) 3%R) sample_children ∧
  eval (λ _ _ _, Cplx.zero) (Series (sample_children.*1.*1))
    (concat (sample_children.*1.*2) ++ [7%R]) 3%R
    = inr (Cplx.sum (sample_children.*2), [7%R]).
Proof.
  split.
  - repeat constructor.
  - refine (proj1 (proj1 (evaluate_series_sum_parallel_reciprocal _) 3%R
                     sample_children [7%R] _)).
    repeat constructor.
Defined.

End DescriptionFacts.

(** * The model wrapper: construction, [fit] and [predict] *)

Section ModelWrapper.
Context `{Externals}.

Lemma predict_not_fitted (s : store) (frequencies : value) :
  attrs s !! "parameters_" = Some VNone →
  BaseCircuit.predict frequencies s =
    mkOutcome s [] (inl (ValueError "The model hasn't been fit yet")).
Proof.
  intros Hp. unfold BaseCircuit.predict, BaseCircuit._is_fit. run.
  rewrite Hp. run. reflexivity.
Qed.

(** C3: on an instance whose [parameters_] is [None], [predict] raises
    [ValueError("The model hasn't been fit yet")] and leaves the instance
    unchanged; once [parameters_] holds fitted parameters, [predict]
    hands the stored description, the parameters and the frequencies to
    [computeCircuit] and returns its result, the instance unchanged. *)
Theorem predict_requires_fit (s : store) (frequencies : value) :
  (attrs s !! "parameters_" = Some VNone →
   BaseCircuit.predict frequencies s =
     mkOutcome s [] (inl (ValueError "The model hasn't been fit yet"))) ∧
  (∀ parameters circuit ps fs,
     attrs s !! "parameters_" = Some parameters →
     is_none parameters = false →
     attrs s !! "circuit" = Some circuit →
     tolist parameters = inr ps →
     tolist frequencies = inr fs →
     BaseCircuit.predict frequencies s =
       mkOutcome s [EComputeCircuit circuit ps fs] (computeCircuit circuit ps fs)).
Proof.
  split.
  - apply predict_not_fitted.
  - intros parameters circuit ps fs Hp Hset Hc Hps Hfs.
    unfold BaseCircuit.predict, BaseCircuit._is_fit, call_computeCircuit. run.
    rewrite Hp. run. rewrite Hset. run. rewrite Hc, Hp. run.
    rewrite Hps. run. rewrite Hfs. run. reflexivity.
Qed.

(** C4: on an instance whose [initial_guess] is [None], [fit] always
    raises, calls no collaborator (the minimizer is not invoked) and
    leaves the instance, [parameters_] included, as it was; on inputs
    that pass its input assertions the exception is
    [ValueError('no initial guess supplied')]. *)
Theorem fit_without_initial_guess (s : store) (frequencies impedance : value) :
  attrs s !! "initial_guess" = Some VNone →
  out_store (BaseCircuit.fit frequencies impedance s) = s ∧
  out_trace (BaseCircuit.fit frequencies impedance s) = [] ∧
  (∃ e, out_result (BaseCircuit.fit frequencies impedance s) = inl e) ∧
  (valid_fit_inputs frequencies impedance = true →
   out_result (BaseCircuit.fit frequencies impedance s)
     = inl (ValueError "no initial guess supplied")).
Proof.
  intros Hg. unfold BaseCircuit.fit, valid_fit_inputs. run.
  destruct (is_ndarray frequencies); run; [| by finish].
  destruct (len frequencies) as [e | n]; run; [by finish |].
  destruct (len impedance) as [e | m]; run; [by finish |].
  destruct (bool_decide (n = m)); run; [| by finish].
  destruct (item0 frequencies) as [e | f0]; run; [by finish |].
  destruct (is_number f0); run; [| by finish].
  rewrite Hg. run. by finish.
Qed.


Lemma assert_numbers_run items s :
  assert_numbers items s = mkOutcome s [] (numbers_check items).
Proof.
  induction items as [| i items IH]; cbn [assert_numbers numbers_check]; run.
  - reflexivity.
  - destruct (is_number i); run; [| reflexivity].
    rewrite IH. reflexivity.
Qed.

Lemma check_initial_guess_run guess s :
  check_initial_guess guess s = mkOutcome s [] (guess_check guess).
Proof.
  unfold check_initial_guess, guess_check.
  destruct (is_none guess); run; [reflexivity |].
  destruct (iter_values guess) as [e | items]; run; [reflexivity |].
  rewrite assert_numbers_run. reflexivity.
Qed.

Lemma numbers_check_ok items :
  Forall (λ i, is_number i = true) items → numbers_check items = inr ().
Proof.
  induction 1 as [| i items Hi _ IH]; cbn [numbers_check]; [reflexivity |].
  rewrite Hi. exact IH.
Qed.

Lemma guess_check_ok guess items :
  iter_values guess = inr items →
  Forall (λ i, is_number i = true) items →
  guess_check guess = inr ().
Proof.
  intros Hit Hall. unfold guess_check.
  destruct (is_none guess); [reflexivity |].
  rewrite Hit. simpl. by apply numbers_check_ok.
Qed.

Lemma len_iter_values guess items :
  iter_values guess = inr items → len guess = inr (length items).
Proof. destruct guess; simpl; intros [= <-]; reflexivity. Qed.

Lemma assert_guess_length_run guess n s :
  assert_guess_length guess n s = mkOutcome s [] (guess_length_check guess n).
Proof.
  unfold assert_guess_length, guess_length_check.
  destruct (len guess) as [e | m]; run; [reflexivity |].
  destruct (bool_decide (m = n)); reflexivity.
Qed.

Lemma Randles_init_run guess CPE algorithm bounds s :
  let s1 := mkStore (<["bounds" := bounds]> (<["algorithm" := algorithm]>
             (<["initial_guess" := guess]> (<["parameters_" := VNone]>
             (<["name" := VStr "Randles"]> (attrs s)))))) (draws s) in
  let s2 := mkStore (<["circuit" := VStr (Randles_circuit CPE)]> (attrs s1)) (draws s) in
  Randles.__init__ guess CPE algorithm bounds s =
    match guess_check guess with
    | inl e => mkOutcome s1 [] (inl e)
    | inr _ =>
        match calculateCircuitLength (VStr (Randles_circuit CPE)) with
        | inl e => mkOutcome s2 [] (inl e)
        | inr circuit_length =>
            mkOutcome s2 [] (guess_length_check guess circuit_length)
        end
    end.
Proof.
  unfold Randles.__init__. run. rewrite check_initial_guess_run. run.
  destruct (guess_check guess) as [e | []]; [reflexivity |].
  destruct CPE; run.
  - destruct (calculateCircuitLength _) as [e | n]; run; [reflexivity |].
    rewrite assert_guess_length_run. reflexivity.
  - destruct (calculateCircuitLength _) as [e | n]; run; [reflexivity |].
    rewrite assert_guess_length_run. reflexivity.
Qed.

(** C8: constructing a Randles model with [initial_guess=None] always
    raises, with or without [CPE]: once the circuit length is computed,
    [len(None)] is a [TypeError]. *)
Theorem Randles_without_initial_guess (CPE : bool) (algorithm bounds : value)
    (k : nat) :
  ∃ e : exn,
    out_result (Randles.__init__ VNone CPE algorithm bounds (new_object k)) = inl e ∧
    e = match calculateCircuitLength
                (VStr (if CPE then Randles.circuit_CPE else Randles.circuit_plain)) with
        | inl e' => e'
        | inr _ => TypeError "object has no len()"
        end.
Proof.
  rewrite Randles_init_run. cbn [guess_check is_none]. unfold Randles_circuit.
  destruct (calculateCircuitLength _) as [e | n]; eexists; split; reflexivity.
Qed.

(** C5, amended: with [calculateCircuitLength] as the specification
    describes it, the expected guess lengths are 6 with [CPE] and 5
    without; a numeric guess of any other length makes the constructor
    raise the length assertion, and one of that length is accepted. *)
Theorem Randles_guess_length_checked :
  (∀ d, calculateCircuitLength (VStr d) = Description.parameterCount d) →
  ∀ (guess : value) (items : list value) (CPE : bool) (algorithm bounds : value)
    (k : nat),
    iter_values guess = inr items →
    Forall (λ i, is_number i = true) items →
    calculateCircuitLength (VStr Randles.circuit_CPE) = inr 6 ∧
    calculateCircuitLength (VStr Randles.circuit_plain) = inr 5 ∧
    out_result (Randles.__init__ guess CPE algorithm bounds (new_object k)) =
      if decide (length items = if CPE then 6 else 5) then inr ()
      else inl (AssertionError
                  "Initial guess length needs to be equal to {circuit_length}" []).
Proof.
  intros Hlen guess items CPE algorithm bounds k Hit Hall.
  assert (H6 : calculateCircuitLength (VStr Randles.circuit_CPE) = inr 6)
    by (rewrite Hlen; reflexivity).
  assert (H5 : calculateCircuitLength (VStr Randles.circuit_plain) = inr 5)
    by (rewrite Hlen; reflexivity).
  split; [exact H6 |]. split; [exact H5 |].
  rewrite Randles_init_run, (guess_check_ok _ _ Hit Hall).
  unfold guess_length_check. rewrite (len_iter_values _ _ Hit).
  destruct CPE; cbn [Randles_circuit]; rewrite ?H6, ?H5; cbn.
  - destruct (decide (length items = 6)); [rewrite bool_decide_eq_true_2 | rewrite bool_decide_eq_false_2]; done.
  - destruct (decide (length items = 5)); [rewrite bool_decide_eq_true_2 | rewrite bool_decide_eq_false_2]; done.
Qed.


Lemma BaseCircuit_init_run guess algorithm bounds s :
  BaseCircuit.__init__ guess algorithm bounds s =
    match guess_check guess with
    | inl e => mkOutcome s [] (inl e)
    | inr _ =>
        mkOutcome
          (mkStore (<["bounds" := bounds]> (<["parameters_" := VNone]>
                     (<["initial_guess" := guess]> (attrs s)))) (draws s))
          [] (inr ())
    end.
Proof.
  unfold BaseCircuit.__init__. run. rewrite check_initial_guess_run. run.
  destruct (guess_check guess) as [e | []]; reflexivity.
Qed.

Lemma DefineCircuit_init_parameters guess circuit algorithm bounds s :
  attrs (out_store (DefineCircuit.__init__ guess circuit algorithm bounds s))
    !! "parameters_" = Some VNone.
Proof.
  unfold DefineCircuit.__init__. run.
  destruct (is_none guess); run; [by simplify_map_eq |].
  destruct (iter_values guess) as [e | items]; run; [by simplify_map_eq |].
  rewrite assert_numbers_run. run.
  destruct (numbers_check items) as [e | []]; run; [by simplify_map_eq |].
  destruct (calculateCircuitLength circuit) as [e | n]; run; [by simplify_map_eq |].
  rewrite assert_guess_length_run. run.
  destruct (guess_length_check guess n); run; by simplify_map_eq.
Qed.

Lemma FlexiCircuit_init_run max_elements generations popsize guess s :
  FlexiCircuit.__init__ max_elements generations popsize guess s =
    mkOutcome
      (mkStore (<["max_elements" := max_elements]> (<["popsize" := popsize]>
                 (<["generations" := generations]> (<["initial_guess" := guess]>
                 (<["name" := VStr "Flexible Circuit"]> (attrs s))))))
               (draws s))
      [] (inr ()).
Proof. unfold FlexiCircuit.__init__. run. reflexivity. Qed.

Lemma other_model_parameters s :
  other_model s → attrs s !! "parameters_" = Some VNone.
Proof.
  intros [guess algorithm bounds k o -> Hok
         | guess CPE algorithm bounds k o -> Hok
         | guess circuit algorithm bounds k o -> Hok].
  - rewrite BaseCircuit_init_run in *.
    destruct (guess_check guess); [discriminate |]. by simplify_map_eq.
  - rewrite Randles_init_run in *. cbn zeta in *.
    destruct (guess_check guess); [discriminate |].
    destruct (calculateCircuitLength _); [discriminate |]. by simplify_map_eq.
  - apply DefineCircuit_init_parameters.
Qed.

(** C10: a freshly constructed [FlexiCircuit] has no [parameters_]
    attribute, and [predict] on it raises [AttributeError] for
    [parameters_]; on an instance of one of the other classes it raises
    [ValueError("The model hasn't been fit yet")]. *)
Theorem FlexiCircuit_predict_attribute_error
    (max_elements generations popsize initial_guess frequencies : value)
    (k : nat) :
  ∃ flexi : store,
    FlexiCircuit.__init__ max_elements generations popsize initial_guess
      (new_object k) = mkOutcome flexi [] (inr ()) ∧
    attrs flexi !! "parameters_" = None ∧
    BaseCircuit.predict frequencies flexi =
      mkOutcome flexi [] (inl (AttributeError "parameters_")) ∧
    ∀ s, other_model s →
         BaseCircuit.predict frequencies s =
           mkOutcome s [] (inl (ValueError "The model hasn't been fit yet")).
Proof.
  rewrite FlexiCircuit_init_run. eexists. split; [reflexivity |].
  cbn [attrs].
  assert (Hnone : (<["max_elements" := max_elements]> (<["popsize" := popsize]>
                 (<["generations" := generations]> (<["initial_guess" := initial_guess]>
                 (<["name" := VStr "Flexible Circuit"]> (attrs (new_object k)))))))
                 !! "parameters_" = None)
    by (by simplify_map_eq).
  split; [exact Hnone |]. split.
  - unfold BaseCircuit.predict, BaseCircuit._is_fit. unfold_M.
    cbn [attrs]. rewrite Hnone. reflexivity.
  - intros s Hs. apply predict_not_fitted. by apply other_model_parameters.
Qed.

End ModelWrapper.

(** * The topology search *)

Section TopologySearch.
Context `{Externals}.

Lemma score_population_cons Z f pop rest acc s :
  FlexiCircuit.score_population Z f (pop :: rest) acc s =
    let s1 := with_attr "circuit" pop s in
    match calculateCircuitLength pop with
    | inl e => mkOutcome s1 [EPrint pop] (inl e)
    | inr n =>
        let x0 := uniform_guess n in
        let s2 := with_attr "initial_guess" x0 s1 in
        match leastsq x0 Z f pop with
        | inl e => mkOutcome s2 [EPrint pop; ELeastsq x0 Z f pop] (inl e)
        | inr (p_values, fvec) =>
            let o := FlexiCircuit.score_population Z f rest
                       (acc ++ [VList [mean_square fvec; pop]]) s2 in
            mkOutcome (out_store o)
              ([EPrint pop; ELeastsq x0 Z f pop; EPrint p_values] ++ out_trace o)
              (out_result o)
        end
    end.
Proof.
  cbn [FlexiCircuit.score_population]. unfold call_leastsq, with_attr. run.
  destruct (calculateCircuitLength pop) as [e | n]; [reflexivity |]. run.
  destruct (leastsq (uniform_guess n) Z f pop) as [e | [p_values fvec]]; [reflexivity |].
  run.
  destruct FlexiCircuit.score_population. reflexivity.
Qed.

Lemma generations_loop_S Z f k scores s :
  FlexiCircuit.generations_loop Z f (S k) scores s =
    match attrs s !! "popsize" with
    | None => mkOutcome s [] (inl (AttributeError "popsize"))
    | Some popsize =>
        let ev := EMakePopulation popsize 5 in
        match make_population (draws s) popsize 5 with
        | inl e => mkOutcome (mkStore (attrs s) (S (draws s))) [ev] (inl e)
        | inr pops =>
            let s1 := mkStore (<["population" := VList pops]> (attrs s)) (S (draws s)) in
            let o := FlexiCircuit.score_population Z f pops [] s1 in
            match out_result o with
            | inl e => mkOutcome (out_store o) (ev :: out_trace o) (inl e)
            | inr b =>
                let o' := FlexiCircuit.generations_loop Z f k (Some b) (out_store o) in
                mkOutcome (out_store o') (ev :: out_trace o ++ out_trace o')
                  (out_result o')
            end
        end
    end.
Proof.
  cbn [FlexiCircuit.generations_loop]. unfold call_make_population. run.
  destruct (attrs s !! "popsize") as [popsize |]; [| reflexivity]. run.
  destruct (make_population (draws s) popsize 5) as [e | pops]; [reflexivity |]. run.
  destruct FlexiCircuit.score_population as [s2 t2 [e | b]]; [reflexivity |]. run.
  destruct FlexiCircuit.generations_loop. reflexivity.
Qed.

Lemma fit_run frequencies impedances s :
  FlexiCircuit.fit frequencies impedances s =
    match attrs s !! "generations" with
    | None => mkOutcome s [] (inl (AttributeError "generations"))
    | Some generations =>
        match range generations with
        | inl e => mkOutcome s [] (inl e)
        | inr k =>
            let o := FlexiCircuit.generations_loop impedances frequencies k None s in
            match out_result o with
            | inl e => mkOutcome (out_store o) (out_trace o) (inl e)
            | inr None =>
                mkOutcome (out_store o) (out_trace o) (inl (UnboundLocalError "scores"))
            | inr (Some scores) =>
                mkOutcome (out_store o) (out_trace o ++ [EPrint (VList scores)])
                  (inr (VList scores))
            end
        end
    end.
Proof.
  unfold FlexiCircuit.fit. run.
  destruct (attrs s !! "generations") as [generations |]; [| reflexivity]. run.
  destruct (range generations) as [e | k]; [reflexivity |]. run.
  destruct FlexiCircuit.generations_loop as [s2 t2 [e | [b |]]]; run; try reflexivity.
  rewrite app_nil_r. reflexivity.
Qed.

Lemma last_evaluated_app tr tr' :
  last_evaluated (tr ++ tr') =
    match last_evaluated tr' with
    | Some c => Some c
    | None => last_evaluated tr
    end.
Proof. unfold last_evaluated, evaluated. rewrite omap_app. apply last_app. Qed.

Lemma score_population_holds_last Z f pops :
  ∀ acc s tr0,
    holds_last tr0 s →
    let o := FlexiCircuit.score_population Z f pops acc s in
    (∃ b, out_result o = inr b) →
    holds_last (tr0 ++ out_trace o) (out_store o).
Proof.
  induction pops as [| pop rest IH]; intros acc s tr0 Hinv.
  - cbn. intros _. by rewrite app_nil_r.
  - rewrite score_population_cons. cbn zeta.
    destruct (calculateCircuitLength pop) as [e | n] eqn:Hn;
      [intros [b [=]] |].
    destruct (leastsq (uniform_guess n) Z f pop) as [e | [p_values fvec]];
      [intros [b [=]] |].
    cbn [out_result out_store out_trace]. intros Hok.
    rewrite app_assoc. apply IH; [| exact Hok].
    intros c. rewrite last_evaluated_app.
    change (last_evaluated [EPrint pop; ELeastsq (uniform_guess n) Z f pop;
                            EPrint p_values]) with (Some pop).
    intros [= <-]. unfold with_attr; cbn [attrs].
    split; [by simplify_map_eq |].
    exists n. split; [exact Hn | by simplify_map_eq].
Qed.

Lemma generations_loop_holds_last Z f k :
  ∀ scores s tr0,
    holds_last tr0 s →
    let o := FlexiCircuit.generations_loop Z f k scores s in
    (∃ b, out_result o = inr b) →
    holds_last (tr0 ++ out_trace o) (out_store o).
Proof.
  induction k as [| k IH]; intros scores s tr0 Hinv.
  - cbn. intros _. by rewrite app_nil_r.
  - rewrite generations_loop_S. cbn zeta.
    destruct (attrs s !! "popsize") as [popsize |]; [| intros [b [=]]].
    destruct (make_population (draws s) popsize 5) as [e | pops];
      [intros [b [=]] |].
    set (s1 := mkStore _ _).
    assert (Hs1 : holds_last (tr0 ++ [EMakePopulation popsize 5]) s1).
    { intros c. rewrite last_evaluated_app.
      change (last_evaluated [EMakePopulation popsize 5]) with (@None value).
      intros Hc.
      destruct (Hinv c Hc) as (Hcirc & n & Hn & Hguess).
      subst s1; cbn [attrs]. split; [by simplify_map_eq |].
      exists n. split; [exact Hn | by simplify_map_eq]. }
    pose proof (score_population_holds_last Z f pops [] s1 _ Hs1) as Hsp.
    cbn zeta in Hsp.
    destruct (FlexiCircuit.score_population Z f pops [] s1) as [s2 t2 [e | b]];
      cbn [out_result out_store out_trace] in *; [intros [b [=]] |].
    specialize (Hsp (ex_intro _ b eq_refl)).
    pose proof (IH (Some b) s2 _ Hsp) as Hloop. cbn zeta in Hloop.
    destruct (FlexiCircuit.generations_loop Z f k (Some b) s2) as [s3 t3 r3];
      cbn [out_result out_store out_trace] in *.
    intros Hok. specialize (Hloop Hok).
    replace (tr0 ++ EMakePopulation popsize 5 :: t2 ++ t3)
      with (((tr0 ++ [EMakePopulation popsize 5]) ++ t2) ++ t3)
      by (rewrite <- !app_assoc; reflexivity).
    exact Hloop.
Qed.

(** C9: when [FlexiCircuit.fit] returns, [circuit] holds the candidate
    evaluated last and [initial_guess] the uniform guess built for it,
    whatever guess the user had supplied. *)
Theorem fit_overwrites_guess_and_circuit
    (s : store) (frequencies impedances scores candidate : value) :
  out_result (FlexiCircuit.fit frequencies impedances s) = inr scores →
  last_evaluated (out_trace (FlexiCircuit.fit frequencies impedances s))
    = Some candidate →
  attrs (out_store (FlexiCircuit.fit frequencies impedances s)) !! "circuit"
    = Some candidate ∧
  ∃ n, calculateCircuitLength candidate = inr n ∧
       attrs (out_store (FlexiCircuit.fit frequencies impedances s))
         !! "initial_guess" = Some (uniform_guess n).
Proof.
  rewrite fit_run. cbn zeta.
  destruct (attrs s !! "generations") as [generations |]; [| intros [=]].
  destruct (range generations) as [e | k]; [intros [=] |].
  pose proof (generations_loop_holds_last impedances frequencies k None s []) as Hloop.
  cbn zeta in Hloop.
  destruct (FlexiCircuit.generations_loop impedances frequencies k None s)
    as [s2 t2 [e | [b |]]]; cbn [out_result out_store out_trace] in *;
    [intros [=] | | intros [=]].
  intros _. rewrite last_evaluated_app.
  change (last_evaluated [EPrint (VList b)]) with (@None value). intros Hlast.
  apply Hloop; [intros c [=] | eauto | exact Hlast].
Qed.


Lemma fail_stop_prefix {A B : Type} (tr : list event) (o : outcome A)
    (o' : outcome B) :
  Forall leastsq_returns tr →
  out_trace o' = tr ++ out_trace o →
  (∀ e, out_result o = inl e → out_result o' = inl e) →
  fail_stop o → fail_stop o'.
Proof.
  intros Htr Htrace Hres [Hall | (pre & x0 & Z & f & c & e & Hpre & Hok & He & Hr)].
  - left. rewrite Htrace. by apply Forall_app.
  - right. exists (tr ++ pre), x0, Z, f, c, e.
    rewrite Htrace, Hpre, app_assoc. repeat split; auto.
    by apply Forall_app.
Qed.

Lemma score_population_fail_stop Z f pops :
  ∀ acc s, fail_stop (FlexiCircuit.score_population Z f pops acc s).
Proof.
  induction pops as [| pop rest IH]; intros acc s.
  - left. constructor.
  - rewrite score_population_cons. cbn zeta.
    destruct (calculateCircuitLength pop) as [e | n].
    { left. repeat constructor. }
    destruct (leastsq (uniform_guess n) Z f pop) as [e | [p_values fvec]] eqn:Hl.
    { right. exists [EPrint pop], (uniform_guess n), Z, f, pop, e.
      repeat split; auto. repeat constructor. }
    eapply (fail_stop_prefix
              [EPrint pop; ELeastsq (uniform_guess n) Z f pop; EPrint p_values]);
      [| | | apply IH]; cbn; [| reflexivity | auto].
    repeat constructor. cbn. eauto.
Qed.

Lemma generations_loop_fail_stop Z f k :
  ∀ scores s, fail_stop (FlexiCircuit.generations_loop Z f k scores s).
Proof.
  induction k as [| k IH]; intros scores s.
  - left. constructor.
  - rewrite generations_loop_S.
    destruct (attrs s !! "popsize") as [popsize |]; [| left; constructor].
    cbn zeta.
    destruct (make_population (draws s) popsize 5) as [e | pops];
      [left; repeat constructor |].
    set (s1 := mkStore _ _).
    pose proof (score_population_fail_stop Z f pops [] s1) as Hsp.
    destruct (FlexiCircuit.score_population Z f pops [] s1) as [s2 t2 [e | b]];
      cbn [out_result out_store out_trace] in *.
    + eapply (fail_stop_prefix [EMakePopulation popsize 5]); [| | | exact Hsp];
        cbn; [repeat constructor | reflexivity | by intros ? [= <-]].
    + destruct Hsp as [Hall | (? & ? & ? & ? & ? & ? & _ & _ & _ & [=])].
      cbn in Hall.
      eapply (fail_stop_prefix (EMakePopulation popsize 5 :: t2));
        [| | | apply (IH (Some b) s2)]; cbn; [| reflexivity | auto].
      constructor; [exact I | exact Hall].
Qed.

Lemma fit_fail_stop frequencies impedances s :
  fail_stop (FlexiCircuit.fit frequencies impedances s).
Proof.
  rewrite fit_run.
  destruct (attrs s !! "generations") as [generations |]; [| left; constructor].
  destruct (range generations) as [e | k]; [left; constructor |].
  cbn zeta.
  pose proof (generations_loop_fail_stop impedances frequencies k None s) as Hloop.
  destruct (FlexiCircuit.generations_loop impedances frequencies k None s)
    as [s2 t2 [e | [b |]]]; cbn [out_result out_store out_trace] in *.
  - eapply (fail_stop_prefix []); [ | | | exact Hloop].
    + constructor.
    + reflexivity.
    + by intros ? [= <-].
  - destruct Hloop as [Hall | (? & ? & ? & ? & ? & ? & _ & _ & _ & [=])].
    left. cbn in *. apply Forall_app. split; [exact Hall | repeat constructor].
  - destruct Hloop as [Hall | (? & ? & ? & ? & ? & ? & _ & _ & _ & [=])].
    left. exact Hall.
Qed.

(** C7, amended: when the fit of a candidate raises, [FlexiCircuit.fit]
    raises that exception at once: the failing [leastsq] call is the
    last event of the run, so no later candidate is evaluated and no
    scores are returned. *)
Theorem candidate_failure_aborts_search
    (s : store) (frequencies impedances : value)
    (pre post : list event) (x0 Z f candidate : value) (e : exn) :
  out_trace (FlexiCircuit.fit frequencies impedances s)
    = pre ++ ELeastsq x0 Z f candidate :: post →
  leastsq x0 Z f candidate = inl e →
  post = [] ∧ out_result (FlexiCircuit.fit frequencies impedances s) = inl e.
Proof.
  intros Htrace Hraise.
  destruct (fit_fail_stop frequencies impedances s)
    as [Hall | (pre' & x0' & Z' & f' & c' & e' & Hpre & Hok & He & Hr)].
  - rewrite Htrace in Hall. apply Forall_app in Hall as [_ Hall].
    apply Forall_cons in Hall as [[r Hr] _]. congruence.
  - rewrite Htrace in Hpre.
    destruct post as [| ev post _] using rev_ind.
    + apply app_inj_tail in Hpre as [_ [= -> -> -> ->]].
      split; [reflexivity | congruence].
    + change (pre ++ ELeastsq x0 Z f candidate :: post ++ [ev])
        with (pre ++ (ELeastsq x0 Z f candidate :: post) ++ [ev]) in Hpre.
      rewrite app_assoc in Hpre. apply app_inj_tail in Hpre as [<- _].
      apply Forall_app in Hok as [_ Hok].
      apply Forall_cons in Hok as [[r Hr'] _]. congruence.
Qed.

Lemma batch_cons Z f pop rest :
  batch Z f (pop :: rest) =
    (entry ← score_candidate Z f pop; b ← batch Z f rest; mret (entry :: b)).
Proof. reflexivity. Qed.

Lemma batch_entries Z f pops :
  ∀ b, batch Z f pops = inr b →
       Forall2 (λ entry pop, ∃ score, entry = VList [score; pop]) b pops.
Proof.
  induction pops as [| pop rest IH]; intros b.
  - intros [= <-]. constructor.
  - rewrite batch_cons. unfold score_candidate.
    destruct (calculateCircuitLength pop) as [e | n]; [intros [=] |].
    cbn. destruct (leastsq _ _ _ _) as [e | [p_values fvec]]; [intros [=] |].
    cbn. destruct (batch Z f rest) as [e | b']; [intros [=] |].
    cbn. intros [= <-]. constructor; [eauto | by apply IH].
Qed.

Lemma score_population_batch Z f pops :
  ∀ acc s b,
    batch Z f pops = inr b →
    ∃ s' tr,
      FlexiCircuit.score_population Z f pops acc s = mkOutcome s' tr (inr (acc ++ b)) ∧
      draws s' = draws s ∧
      attrs s' !! "popsize" = attrs s !! "popsize" ∧
      attrs s' !! "population" = attrs s !! "population".
Proof.
  induction pops as [| pop rest IH]; intros acc s b.
  - intros [= <-]. exists s, []. rewrite app_nil_r. by repeat split.
  - rewrite batch_cons, score_population_cons. unfold score_candidate.
    destruct (calculateCircuitLength pop) as [e | n]; [intros [=] |].
    cbn. destruct (leastsq _ _ _ _) as [e | [p_values fvec]]; [intros [=] |].
    cbn. destruct (batch Z f rest) as [e | b'] eqn:Hb; [intros [=] |].
    cbn. intros [= <-].
    destruct (IH (acc ++ [VList [mean_square fvec; pop]])
                 (with_attr "initial_guess" (uniform_guess n)
                    (with_attr "circuit" pop s)) b' eq_refl)
      as (s' & tr & -> & Hd & Hp & Hpop).
    eexists _, _. cbn [out_result out_store out_trace].
    rewrite <- app_assoc. split; [reflexivity |].
    unfold with_attr in *; cbn [attrs draws] in *.
    rewrite Hd, Hp, Hpop. by simplify_map_eq.
Qed.

Lemma generations_loop_last Z f popsize k :
  ∀ scores s,
    attrs s !! "popsize" = Some popsize →
    (∀ i, (i < S k)%nat →
          ∃ pops b, make_population (draws s + i) popsize 5 = inr pops ∧
                    batch Z f pops = inr b) →
    ∃ s' tr pops b,
      FlexiCircuit.generations_loop Z f (S k) scores s
        = mkOutcome s' tr (inr (Some b)) ∧
      make_population (draws s + k) popsize 5 = inr pops ∧
      batch Z f pops = inr b ∧
      attrs s' !! "population" = Some (VList pops).
Proof.
  induction k as [| k IH]; intros scores s Hp Hgen.
  - destruct (Hgen 0%nat ltac:(lia)) as (pops & b & Hpops & Hb).
    rewrite Nat.add_0_r in *.
    rewrite generations_loop_S, Hp. cbn zeta. rewrite Hpops.
    destruct (score_population_batch Z f pops []
                (mkStore (<["population" := VList pops]> (attrs s)) (S (draws s)))
                b Hb) as (s' & tr & -> & Hd & Hp' & Hpop).
    cbn [out_result out_store out_trace FlexiCircuit.generations_loop app].
    unfold mret, M_ret, ret. cbn [out_result out_store out_trace attrs] in *.
    eexists _, _, pops, b. split; [reflexivity |].
    repeat split; auto. rewrite Hpop. by simplify_map_eq.
  - destruct (Hgen 0%nat ltac:(lia)) as (pops & b & Hpops & Hb).
    rewrite Nat.add_0_r in *.
    rewrite generations_loop_S, Hp. cbn zeta. rewrite Hpops.
    destruct (score_population_batch Z f pops []
                (mkStore (<["population" := VList pops]> (attrs s)) (S (draws s)))
                b Hb) as (s1 & tr & -> & Hd & Hp' & Hpop).
    cbn [out_result out_store out_trace app attrs draws] in *.
    destruct (IH (Some b) s1) as (s' & tr' & pops' & b' & -> & Hpops' & Hb' & Hpop').
    { rewrite Hp'. by simplify_map_eq. }
    { intros i Hi. rewrite Hd.
      replace (S (draws s) + i)%nat with (draws s + S i)%nat by lia.
      apply Hgen. lia. }
    cbn [out_result out_store out_trace].
    eexists _, _, pops', b'. split; [reflexivity |].
    rewrite Hd in Hpops'.
    replace (draws s + S k)%nat with (S (draws s) + k)%nat by lia.
    by repeat split.
Qed.

(** C6, amended: for [generations = g >= 1], when every generation can
    be drawn and scored, [FlexiCircuit.fit] returns one batch only, that
    of the last generation: one [[score, candidate]] entry per candidate
    of the last population drawn, in order, at most [p] entries when the
    generator draws at most [p] candidates. *)
Theorem fit_returns_last_generation
    (s : store) (frequencies impedances popsize : value) (g : Z) (p : nat) :
  attrs s !! "generations" = Some (VInt g) →
  (1 ≤ g)%Z →
  attrs s !! "popsize" = Some popsize →
  (∀ i, (i < Z.to_nat g)%nat →
        ∃ pops b,
          make_population (draws s + i) popsize 5 = inr pops ∧
          (length pops ≤ p)%nat ∧
          batch impedances frequencies pops = inr b) →
  ∃ s' tr pops b,
    FlexiCircuit.fit frequencies impedances s = mkOutcome s' tr (inr (VList b)) ∧
    make_population (draws s + (Z.to_nat g - 1)) popsize 5 = inr pops ∧
    batch impedances frequencies pops = inr b ∧
    attrs s' !! "population" = Some (VList pops) ∧
    Forall2 (λ entry pop, ∃ score, entry = VList [score; pop]) b pops ∧
    (length b ≤ p)%nat.
Proof.
  intros Hg Hpos Hp Hgen.
  destruct (Z.to_nat g) as [| k] eqn:Hk; [lia |].
  destruct (generations_loop_last impedances frequencies popsize k None s Hp)
    as (s' & tr & pops & b & Hloop & Hpops & Hb & Hpop).
  { intros i Hi. destruct (Hgen i Hi) as (pops & b & ? & _ & ?). eauto. }
  rewrite fit_run, Hg. cbn [range]. unfold mret, result_ret. rewrite Hk.
  cbn zeta. rewrite Hloop. cbn [out_result out_store out_trace].
  replace (S k - 1)%nat with k by lia.
  exists s', (tr ++ [EPrint (VList b)]), pops, b.
  pose proof (batch_entries _ _ _ _ Hb) as Hentries.
  repeat split; auto.
  destruct (Hgen k ltac:(lia)) as (pops' & b' & Hpops' & Hlen & _).
  rewrite Hpops in Hpops'. injection Hpops' as <-.
  by rewrite (Forall2_length _ _ _ Hentries).
Qed.


End TopologySearch.

(** * More on [fit] and [predict] *)

Section FitAndPredict.
Context `{Externals}.

(** [fit] on arguments that pass its input assertions. *)
Lemma fit_valid_run frequencies impedance s :
  valid_fit_inputs frequencies impedance = true →
  BaseCircuit.fit frequencies impedance s =
    match attrs s !! "initial_guess" with
    | None => mkOutcome s [] (inl (AttributeError "initial_guess"))
    | Some guess =>
        if is_none guess
        then mkOutcome s [] (inl (ValueError "no initial guess supplied"))
        else
          match attrs s !! "circuit" with
          | None => mkOutcome s [] (inl (AttributeError "circuit"))
          | Some circuit =>
              match attrs s !! "algorithm" with
              | None => mkOutcome s [] (inl (AttributeError "algorithm"))
              | Some algorithm =>
                  match attrs s !! "bounds" with
                  | None => mkOutcome s [] (inl (AttributeError "bounds"))
                  | Some bounds =>
                      match circuit_fit frequencies impedance circuit guess
                              algorithm bounds with
                      | inl e =>
                          mkOutcome s
                            [ECircuitFit frequencies impedance circuit guess
                               algorithm bounds] (inl e)
                      | inr (parameters, _) =>
                          mkOutcome (with_attr "parameters_" parameters s)
                            [ECircuitFit frequencies impedance circuit guess
                               algorithm bounds] (inr ())
                      end
                  end
              end
          end
    end.
Proof.
  unfold valid_fit_inputs, BaseCircuit.fit, call_circuit_fit, with_attr. run.
  destruct (is_ndarray frequencies); [| discriminate]. run.
  destruct (len frequencies) as [e | n]; [discriminate |]. run.
  destruct (len impedance) as [e | m]; [discriminate |]. run.
  destruct (bool_decide (n = m)); [| discriminate]. run.
  destruct (item0 frequencies) as [e | f0]; [discriminate |]. run.
  destruct (is_number f0); [| discriminate]. run. intros _.
  destruct (attrs s !! "initial_guess") as [guess |] eqn:Hg; [| reflexivity]. run.
  destruct (is_none guess); [reflexivity |]. run.
  destruct (attrs s !! "circuit") as [circuit |]; [| reflexivity]. run.
  rewrite Hg. run.
  destruct (attrs s !! "algorithm") as [algorithm |]; [| reflexivity]. run.
  destruct (attrs s !! "bounds") as [bounds |]; [| reflexivity]. run.
  destruct (circuit_fit _ _ _ _ _ _) as [e | [parameters d]]; reflexivity.
Qed.

(** Whatever the arguments, [fit] either raises with the instance as it
    was, or stores the first result of one [circuit_fit] call. *)
Lemma fit_cases frequencies impedance s :
  (∃ tr e, BaseCircuit.fit frequencies impedance s = mkOutcome s tr (inl e) ∧
           (length tr ≤ 1)%nat) ∨
  (∃ circuit guess algorithm bounds parameters d,
     attrs s !! "circuit" = Some circuit ∧
     attrs s !! "initial_guess" = Some guess ∧
     attrs s !! "algorithm" = Some algorithm ∧
     attrs s !! "bounds" = Some bounds ∧
     circuit_fit frequencies impedance circuit guess algorithm bounds
       = inr (parameters, d) ∧
     BaseCircuit.fit frequencies impedance s =
       mkOutcome (with_attr "parameters_" parameters s)
         [ECircuitFit frequencies impedance circuit guess algorithm bounds]
         (inr ())).
Proof.
  destruct (valid_fit_inputs frequencies impedance) eqn:Hvalid.
  - rewrite (fit_valid_run _ _ _ Hvalid).
    destruct (attrs s !! "initial_guess") as [guess |]; [| left; eauto].
    destruct (is_none guess); [left; eauto |].
    destruct (attrs s !! "circuit") as [circuit |]; [| left; eauto].
    destruct (attrs s !! "algorithm") as [algorithm |]; [| left; eauto].
    destruct (attrs s !! "bounds") as [bounds |]; [| left; eauto].
    destruct (circuit_fit _ _ _ _ _ _) as [e | [parameters d]] eqn:Hfit.
    + left. eauto.
    + right. exists circuit, guess, algorithm, bounds, parameters, d.
      repeat split; auto.
  - left. revert Hvalid.
    unfold valid_fit_inputs, BaseCircuit.fit. run.
    destruct (is_ndarray frequencies); run; [| eauto].
    destruct (len frequencies) as [e | n]; run; [eauto |].
    destruct (len impedance) as [e | m]; run; [eauto |].
    destruct (bool_decide (n = m)); run; [| eauto].
    destruct (item0 frequencies) as [e | f0]; run; [eauto |].
    destruct (is_number f0); run; [discriminate | eauto].
Qed.

(** A [fit] that raises, for whatever reason, leaves the instance exactly
    as it was (an earlier fit's [parameters_] included) and has called
    the minimizer at most once. *)
Theorem failed_fit_leaves_model (s : store) (frequencies impedance : value)
    (e : exn) :
  out_result (BaseCircuit.fit frequencies impedance s) = inl e →
  out_store (BaseCircuit.fit frequencies impedance s) = s ∧
  (length (out_trace (BaseCircuit.fit frequencies impedance s)) ≤ 1)%nat.
Proof.
  destruct (fit_cases frequencies impedance s)
    as [(tr & e' & -> & Hlen) | (c & g & a & b & p & d & _ & _ & _ & _ & _ & ->)].
  - intros _. split; [reflexivity | exact Hlen].
  - intros [=].
Qed.

(** On valid inputs, with a guess and the attributes [circuit],
    [algorithm] and [bounds] present, [fit] calls [circuit_fit] once with
    them, stores its first result in [parameters_] and changes no other
    attribute. *)
Theorem fit_stores_parameters (s : store)
    (frequencies impedance circuit guess algorithm bounds parameters d : value) :
  valid_fit_inputs frequencies impedance = true →
  attrs s !! "initial_guess" = Some guess →
  is_none guess = false →
  attrs s !! "circuit" = Some circuit →
  attrs s !! "algorithm" = Some algorithm →
  attrs s !! "bounds" = Some bounds →
  circuit_fit frequencies impedance circuit guess algorithm bounds
    = inr (parameters, d) →
  BaseCircuit.fit frequencies impedance s =
    mkOutcome (with_attr "parameters_" parameters s)
      [ECircuitFit frequencies impedance circuit guess algorithm bounds]
      (inr ()).
Proof.
  intros Hvalid Hg Hnone Hc Ha Hb Hfit.
  rewrite (fit_valid_run _ _ _ Hvalid), Hg, Hnone, Hc, Ha, Hb, Hfit.
  reflexivity.
Qed.

(** Fitting again on the same data starts from the stored
    [initial_guess] again, not from the fitted parameters: it issues the
    same [circuit_fit] call and leaves the same instance. *)
Theorem refit_repeats_the_fit (s : store)
    (frequencies impedance circuit guess algorithm bounds parameters d : value) :
  valid_fit_inputs frequencies impedance = true →
  attrs s !! "initial_guess" = Some guess →
  is_none guess = false →
  attrs s !! "circuit" = Some circuit →
  attrs s !! "algorithm" = Some algorithm →
  attrs s !! "bounds" = Some bounds →
  circuit_fit frequencies impedance circuit guess algorithm bounds
    = inr (parameters, d) →
  BaseCircuit.fit frequencies impedance
    (out_store (BaseCircuit.fit frequencies impedance s)) =
  mkOutcome (out_store (BaseCircuit.fit frequencies impedance s))
    [ECircuitFit frequencies impedance circuit guess algorithm bounds]
    (inr ()).
Proof.
  intros Hvalid Hg Hnone Hc Ha Hb Hfit.
  rewrite (fit_valid_run _ _ s Hvalid), Hg, Hnone, Hc, Ha, Hb, Hfit.
  cbn [out_store].
  rewrite (fit_valid_run _ _ _ Hvalid). unfold with_attr. cbn [attrs draws].
  rewrite !lookup_insert_ne by done.
  rewrite Hg, Hnone, Hc, Ha, Hb, Hfit.
  by rewrite insert_insert_eq.
Qed.

(** After a successful [fit], [predict] evaluates the stored description
    with exactly the parameters the minimizer returned. *)
Theorem fit_then_predict (s : store)
    (frequencies impedance circuit guess algorithm bounds d : value)
    (dt dt' : dtype) (ps fs : list value) :
  valid_fit_inputs frequencies impedance = true →
  attrs s !! "initial_guess" = Some guess →
  is_none guess = false →
  attrs s !! "circuit" = Some circuit →
  attrs s !! "algorithm" = Some algorithm →
  attrs s !! "bounds" = Some bounds →
  circuit_fit frequencies impedance circuit guess algorithm bounds
    = inr (VNdarray dt ps, d) →
  BaseCircuit.predict (VNdarray dt' fs)
    (out_store (BaseCircuit.fit frequencies impedance s)) =
  mkOutcome (out_store (BaseCircuit.fit frequencies impedance s))
    [EComputeCircuit circuit (VList ps) (VList fs)]
    (computeCircuit circuit (VList ps) (VList fs)).
Proof.
  intros Hvalid Hg Hnone Hc Ha Hb Hfit.
  rewrite (fit_valid_run _ _ s Hvalid), Hg, Hnone, Hc, Ha, Hb, Hfit.
  cbn [out_store].
  unfold BaseCircuit.predict, BaseCircuit._is_fit, call_computeCircuit, with_attr.
  run. rewrite Hc. run. reflexivity.
Qed.

End FitAndPredict.

(** * More on the constructors and [__repr__] *)

Section Constructors.
Context `{Externals}.

Lemma DefineCircuit_init_run guess circuit algorithm bounds s :
  let s1 := mkStore (<["bounds" := bounds]> (<["algorithm" := algorithm]>
             (<["circuit" := circuit]> (<["initial_guess" := guess]>
             (<["parameters_" := VNone]> (<["name" := VStr "Custom"]>
             (attrs s))))))) (draws s) in
  DefineCircuit.__init__ guess circuit algorithm bounds s =
    if is_none guess then mkOutcome s1 [] (inr ())
    else
      match guess_check guess with
      | inl e => mkOutcome s1 [] (inl e)
      | inr _ =>
          match calculateCircuitLength circuit with
          | inl e => mkOutcome s1 [] (inl e)
          | inr circuit_length =>
              mkOutcome s1 [] (guess_length_check guess circuit_length)
          end
      end.
Proof.
  unfold DefineCircuit.__init__, guess_check. run.
  destruct (is_none guess); run; [reflexivity |].
  destruct (iter_values guess) as [e | items]; run; [reflexivity |].
  rewrite assert_numbers_run. run.
  destruct (numbers_check items) as [e | []]; run; [reflexivity |].
  destruct (calculateCircuitLength circuit) as [e | n]; run; [reflexivity |].
  rewrite assert_guess_length_run. reflexivity.
Qed.

Lemma numbers_check_first_bad pre bad post :
  Forall (λ i, is_number i = true) pre →
  is_number bad = false →
  numbers_check (pre ++ bad :: post) =
    inl (AssertionError "value {} in initial_guess is not a number" [bad]).
Proof.
  intros Hpre Hbad. induction Hpre as [| i pre Hi _ IH]; cbn [numbers_check app].
  - by rewrite Hbad.
  - by rewrite Hi.
Qed.

(** A guess list whose first non-numeric item is [bad] makes each of the
    three constructors raise the assertion about [bad]; [BaseCircuit]
    then has set no attribute. *)
Theorem constructors_reject_first_non_number
    (pre post : list value) (bad circuit algorithm bounds : value)
    (CPE : bool) (s : store) :
  Forall (λ i, is_number i = true) pre →
  is_number bad = false →
  BaseCircuit.__init__ (VList (pre ++ bad :: post)) algorithm bounds s =
    mkOutcome s []
      (inl (AssertionError "value {} in initial_guess is not a number" [bad])) ∧
  out_result (Randles.__init__ (VList (pre ++ bad :: post)) CPE algorithm
                bounds s) =
    inl (AssertionError "value {} in initial_guess is not a number" [bad]) ∧
  out_result (DefineCircuit.__init__ (VList (pre ++ bad :: post)) circuit
                algorithm bounds s) =
    inl (AssertionError "value {} in initial_guess is not a number" [bad]).
Proof.
  intros Hpre Hbad.
  assert (Hcheck : guess_check (VList (pre ++ bad :: post)) =
            inl (AssertionError "value {} in initial_guess is not a number" [bad])).
  { unfold guess_check. cbn. by apply numbers_check_first_bad. }
  split; [| split].
  - rewrite BaseCircuit_init_run, Hcheck. reflexivity.
  - rewrite Randles_init_run, Hcheck. reflexivity.
  - rewrite DefineCircuit_init_run, Hcheck. reflexivity.
Qed.

(** [DefineCircuit] with a numeric guess is accepted exactly when the
    guess has as many items as [calculateCircuitLength] counts for the
    given circuit; an exception of [calculateCircuitLength] passes
    through. *)
Theorem DefineCircuit_guess_length_checked
    (guess circuit algorithm bounds : value) (items : list value) (s : store) :
  iter_values guess = inr items →
  Forall (λ i, is_number i = true) items →
  out_result (DefineCircuit.__init__ guess circuit algorithm bounds s) =
    match calculateCircuitLength circuit with
    | inl e => inl e
    | inr n =>
        if decide (length items = n) then inr ()
        else inl (AssertionError
                    "Initial guess length needs to be equal to {circuit_length}" [])
    end.
Proof.
  intros Hit Hall. rewrite DefineCircuit_init_run. cbn zeta.
  assert (Hnone : is_none guess = false) by (by destruct guess).
  rewrite Hnone, (guess_check_ok _ _ Hit Hall).
  destruct (calculateCircuitLength circuit) as [e | n]; [reflexivity |].
  cbn [out_result]. unfold guess_length_check.
  rewrite (len_iter_values _ _ Hit). cbn.
  destruct (decide (length items = n));
    [rewrite bool_decide_eq_true_2 | rewrite bool_decide_eq_false_2]; done.
Qed.

(** [DefineCircuit] without a guess is constructed whatever the circuit
    is (it is not looked at), and the instance can neither be fitted nor
    predict. *)
Theorem DefineCircuit_without_guess_is_inert
    (circuit algorithm bounds frequencies impedance frequencies' : value)
    (s : store) :
  valid_fit_inputs frequencies impedance = true →
  out_result (DefineCircuit.__init__ VNone circuit algorithm bounds s) = inr () ∧
  BaseCircuit.fit frequencies impedance
    (out_store (DefineCircuit.__init__ VNone circuit algorithm bounds s)) =
  mkOutcome (out_store (DefineCircuit.__init__ VNone circuit algorithm bounds s))
    [] (inl (ValueError "no initial guess supplied")) ∧
  BaseCircuit.predict frequencies'
    (out_store (DefineCircuit.__init__ VNone circuit algorithm bounds s)) =
  mkOutcome (out_store (DefineCircuit.__init__ VNone circuit algorithm bounds s))
    [] (inl (ValueError "The model hasn't been fit yet")).
Proof.
  intros Hvalid. rewrite DefineCircuit_init_run. cbn [is_none out_result out_store].
  split; [reflexivity |]. split.
  - rewrite (fit_valid_run _ _ _ Hvalid). cbn [attrs].
    rewrite !lookup_insert_ne by done. rewrite lookup_insert_eq. reflexivity.
  - apply predict_not_fitted. cbn [attrs]. by simplify_map_eq.
Qed.

Lemma Randles_constructed guess CPE algorithm bounds s :
  out_result (Randles.__init__ guess CPE algorithm bounds s) = inr () →
  is_none guess = false ∧
  ∃ s', out_store (Randles.__init__ guess CPE algorithm bounds s) = s' ∧
    attrs s' !! "name" = Some (VStr "Randles") ∧
    attrs s' !! "parameters_" = Some VNone ∧
    attrs s' !! "initial_guess" = Some guess ∧
    attrs s' !! "algorithm" = Some algorithm ∧
    attrs s' !! "bounds" = Some bounds ∧
    attrs s' !! "circuit" = Some (VStr (Randles_circuit CPE)).
Proof.
  rewrite Randles_init_run. cbn zeta.
  destruct (guess_check guess) as [e | []]; [intros [=] |].
  destruct (calculateCircuitLength _) as [e | n]; [intros [=] |].
  cbn [out_result out_store]. intros Hlen. split.
  - destruct guess; try reflexivity. discriminate Hlen.
  - eexists. split; [reflexivity |]. cbn [attrs].
    repeat split; by simplify_map_eq.
Qed.

(** On a constructed Randles model [fit] reaches the minimizer: it calls
    [circuit_fit] with the description chosen by [CPE] and the guess,
    algorithm and bounds given to the constructor, and its outcome is the
    minimizer's. *)
Theorem Randles_fit_uses_stored_description
    (guess algorithm bounds frequencies impedance : value) (CPE : bool)
    (k : nat) :
  out_result (Randles.__init__ guess CPE algorithm bounds (new_object k))
    = inr () →
  valid_fit_inputs frequencies impedance = true →
  BaseCircuit.fit frequencies impedance
    (out_store (Randles.__init__ guess CPE algorithm bounds (new_object k))) =
  match circuit_fit frequencies impedance
          (VStr (if CPE then "R_0-p(R_1,E_1/E_2)-W_1/W_2"
                 else "R_0-p(R_1,C_1)-W_1/W_2"))
          guess algorithm bounds with
  | inl e =>
      mkOutcome
        (out_store (Randles.__init__ guess CPE algorithm bounds (new_object k)))
        [ECircuitFit frequencies impedance
           (VStr (if CPE then "R_0-p(R_1,E_1/E_2)-W_1/W_2"
                  else "R_0-p(R_1,C_1)-W_1/W_2"))
           guess algorithm bounds]
        (inl e)
  | inr (parameters, _) =>
      mkOutcome
        (with_attr "parameters_" parameters
           (out_store (Randles.__init__ guess CPE algorithm bounds
                         (new_object k))))
        [ECircuitFit frequencies impedance
           (VStr (if CPE then "R_0-p(R_1,E_1/E_2)-W_1/W_2"
                  else "R_0-p(R_1,C_1)-W_1/W_2"))
           guess algorithm bounds]
        (inr ())
  end.
Proof.
  intros Hok Hvalid.
  destruct (Randles_constructed _ _ _ _ _ Hok)
    as (Hnone & s' & -> & _ & _ & Hg & Ha & Hb & Hc).
  rewrite (fit_valid_run _ _ _ Hvalid), Hg, Hnone, Hc, Ha, Hb.
  destruct CPE; reflexivity.
Qed.

(** An instance of [BaseCircuit] itself has no [circuit]: with a guess,
    [fit] on valid inputs raises [AttributeError] for it and never calls
    the minimizer. *)
Theorem BaseCircuit_instance_cannot_fit
    (guess algorithm bounds frequencies impedance : value) (k : nat) :
  out_result (BaseCircuit.__init__ guess algorithm bounds (new_object k))
    = inr () →
  is_none guess = false →
  valid_fit_inputs frequencies impedance = true →
  BaseCircuit.fit frequencies impedance
    (out_store (BaseCircuit.__init__ guess algorithm bounds (new_object k))) =
  mkOutcome
    (out_store (BaseCircuit.__init__ guess algorithm bounds (new_object k)))
    [] (inl (AttributeError "circuit")).
Proof.
  intros Hok Hnone Hvalid. rewrite BaseCircuit_init_run in *.
  destruct (guess_check guess) as [e | []]; [discriminate |].
  cbn [out_store]. rewrite (fit_valid_run _ _ _ Hvalid). cbn [attrs new_object].
  rewrite lookup_insert_ne, lookup_insert_ne, lookup_insert_eq by done.
  rewrite Hnone.
  rewrite !lookup_insert_ne by done. rewrite lookup_empty. reflexivity.
Qed.

(** Empty frequencies and impedance pass the length check and then fail
    at [frequencies[0]]: [fit] raises [IndexError], before it looks at
    the guess. *)
Theorem fit_on_empty_series (s : store) (dt : dtype) (impedance : value) :
  len impedance = inr 0%nat →
  BaseCircuit.fit (VNdarray dt []) impedance s =
    mkOutcome s [] (inl (IndexError "index 0 is out of bounds")).
Proof.
  intros Hlen. unfold BaseCircuit.fit. run. rewrite Hlen. run. reflexivity.
Qed.

(** A frequency array whose items are not [float], [int], [np.int32] or
    [np.float64] (an [int64] array, say) is rejected with the assertion
    'frequencies does not contain a number'. *)
Theorem fit_rejects_unlisted_dtype (s : store) (dt : dtype)
    (x : value) (xs : list value) (impedance : value) :
  len impedance = inr (S (length xs)) →
  is_number (VNp dt x) = false →
  BaseCircuit.fit (VNdarray dt (x :: xs)) impedance s =
    mkOutcome s []
      (inl (AssertionError "frequencies does not contain a number" [])).
Proof.
  intros Hlen Hnum. unfold BaseCircuit.fit. run. rewrite Hlen. run.
  rewrite length_fmap, bool_decide_eq_true_2 by reflexivity. run.
  destruct dt; try discriminate Hnum; reflexivity.
Qed.


(** *** [__repr__] *)

(** [repr] of an instance of [BaseCircuit] itself raises
    [AttributeError]: the base constructor sets no [name]. *)
Theorem repr_of_BaseCircuit_instance_fails
    (guess algorithm bounds : value) (k : nat) :
  out_result (BaseCircuit.__init__ guess algorithm bounds (new_object k))
    = inr () →
  BaseCircuit.__repr__
    (out_store (BaseCircuit.__init__ guess algorithm bounds (new_object k))) =
  mkOutcome
    (out_store (BaseCircuit.__init__ guess algorithm bounds (new_object k)))
    [] (inl (AttributeError "name")).
Proof.
  intros Hok. rewrite BaseCircuit_init_run in *.
  destruct (guess_check guess) as [e | []]; [discriminate |].
  cbn [out_store]. unfold BaseCircuit.__repr__, BaseCircuit._is_fit. run.
  rewrite lookup_empty. reflexivity.
Qed.

(** [repr] of a Randles model shows the initial guess before [fit] and
    the fitted parameters after it, with the name and the description. *)
Theorem repr_before_and_after_fit
    (guess algorithm bounds frequencies impedance parameters d : value)
    (CPE : bool) (k : nat) :
  out_result (Randles.__init__ guess CPE algorithm bounds (new_object k))
    = inr () →
  valid_fit_inputs frequencies impedance = true →
  circuit_fit frequencies impedance (VStr (Randles_circuit CPE)) guess
    algorithm bounds = inr (parameters, d) →
  is_none parameters = false →
  out_result
    (BaseCircuit.__repr__
       (out_store (Randles.__init__ guess CPE algorithm bounds (new_object k))))
    = inr (Format unfit_template
             [VStr "Randles"; guess; VStr (Randles_circuit CPE)]) ∧
  out_result
    (BaseCircuit.__repr__
       (out_store
          (BaseCircuit.fit frequencies impedance
             (out_store (Randles.__init__ guess CPE algorithm bounds
                           (new_object k))))))
    = inr (Format fit_template
             [VStr "Randles"; parameters; VStr (Randles_circuit CPE)]).
Proof.
  intros Hok Hvalid Hfit Hset.
  destruct (Randles_constructed _ _ _ _ _ Hok)
    as (Hnone & s' & -> & Hn & Hp & Hg & Ha & Hb & Hc).
  split.
  - unfold BaseCircuit.__repr__, BaseCircuit._is_fit. run.
    rewrite Hp. run. rewrite Hn. run. rewrite Hg. run. rewrite Hc. reflexivity.
  - rewrite (fit_valid_run _ _ _ Hvalid), Hg, Hnone, Hc, Ha, Hb, Hfit.
    cbn [out_store]. unfold BaseCircuit.__repr__, BaseCircuit._is_fit, with_attr.
    run. rewrite Hset. run. rewrite Hn. run. rewrite Hc. reflexivity.
Qed.

End Constructors.

(** * More on the topology search *)

Section SearchRuns.
Context `{Externals}.

Lemma score_population_frame Z f pops name :
  name ≠ "circuit" → name ≠ "initial_guess" →
  ∀ acc s,
    attrs (out_store (FlexiCircuit.score_population Z f pops acc s)) !! name
      = attrs s !! name ∧
    draws (out_store (FlexiCircuit.score_population Z f pops acc s)) = draws s.
Proof.
  intros Hc Hg. induction pops as [| pop rest IH]; intros acc s.
  - split; reflexivity.
  - rewrite score_population_cons. cbn zeta.
    destruct (calculateCircuitLength pop) as [e | n].
    { unfold with_attr. cbn. by rewrite lookup_insert_ne. }
    destruct (leastsq _ _ _ _) as [e | [p_values fvec]].
    { unfold with_attr. cbn. by rewrite !lookup_insert_ne. }
    cbn [out_store].
    destruct (IH (acc ++ [VList [mean_square fvec; pop]])
                (with_attr "initial_guess" (uniform_guess n)
                   (with_attr "circuit" pop s)))
      as [-> ->].
    unfold with_attr. cbn. by rewrite !lookup_insert_ne.
Qed.

Lemma generations_loop_frame Z f k name :
  name ≠ "circuit" → name ≠ "initial_guess" → name ≠ "population" →
  ∀ scores s,
    attrs (out_store (FlexiCircuit.generations_loop Z f k scores s)) !! name
      = attrs s !! name.
Proof.
  intros Hc Hg Hp. induction k as [| k IH]; intros scores s; [reflexivity |].
  rewrite generations_loop_S.
  destruct (attrs s !! "popsize") as [popsize |]; [| reflexivity]. cbn zeta.
  destruct (make_population (draws s) popsize 5) as [e | pops]; [reflexivity |].
  set (s1 := mkStore _ _).
  pose proof (score_population_frame Z f pops name Hc Hg [] s1) as [Hsp _].
  destruct (FlexiCircuit.score_population Z f pops [] s1) as [s2 t2 [e | b]];
    cbn [out_result out_store] in *.
  - rewrite Hsp. subst s1. cbn. by rewrite lookup_insert_ne.
  - rewrite IH, Hsp. subst s1. cbn. by rewrite lookup_insert_ne.
Qed.

(** [FlexiCircuit.fit] assigns [population], [circuit] and
    [initial_guess] only: every other attribute is as before, whether it
    returns or raises. *)
Theorem search_touches_three_attributes
    (s : store) (frequencies impedances : value) (name : string) :
  name ≠ "circuit" → name ≠ "initial_guess" → name ≠ "population" →
  attrs (out_store (FlexiCircuit.fit frequencies impedances s)) !! name
    = attrs s !! name.
Proof.
  intros Hc Hg Hp. rewrite fit_run.
  destruct (attrs s !! "generations") as [generations |]; [| reflexivity].
  destruct (range generations) as [e | k]; [reflexivity |]. cbn zeta.
  pose proof (generations_loop_frame impedances frequencies k name Hc Hg Hp
                None s) as Hloop.
  destruct (FlexiCircuit.generations_loop impedances frequencies k None s)
    as [s2 t2 [e | [b |]]]; exact Hloop.
Qed.

(** [FlexiCircuit.fit] never sets [parameters_]: after it, [predict] and
    [repr] on a [FlexiCircuit] still raise [AttributeError]. *)
Theorem FlexiCircuit_is_never_fitted
    (max_elements generations popsize initial_guess : value)
    (frequencies impedances frequencies' : value) (k : nat) :
  BaseCircuit.predict frequencies'
    (out_store (FlexiCircuit.fit frequencies impedances
       (out_store (FlexiCircuit.__init__ max_elements generations popsize
                     initial_guess (new_object k)))))
  = mkOutcome
      (out_store (FlexiCircuit.fit frequencies impedances
         (out_store (FlexiCircuit.__init__ max_elements generations popsize
                       initial_guess (new_object k)))))
      [] (inl (AttributeError "parameters_")) ∧
  BaseCircuit.__repr__
    (out_store (FlexiCircuit.fit frequencies impedances
       (out_store (FlexiCircuit.__init__ max_elements generations popsize
                     initial_guess (new_object k)))))
  = mkOutcome
      (out_store (FlexiCircuit.fit frequencies impedances
         (out_store (FlexiCircuit.__init__ max_elements generations popsize
                       initial_guess (new_object k)))))
      [] (inl (AttributeError "parameters_")).
Proof.
  set (s' := out_store (FlexiCircuit.fit _ _ _)).
  assert (Hnone : attrs s' !! "parameters_" = None).
  { subst s'. rewrite search_touches_three_attributes by done.
    rewrite FlexiCircuit_init_run. cbn. by simplify_map_eq. }
  split.
  - unfold BaseCircuit.predict, BaseCircuit._is_fit. unfold_M.
    rewrite Hnone. reflexivity.
  - unfold BaseCircuit.__repr__, BaseCircuit._is_fit. unfold_M.
    rewrite Hnone. reflexivity.
Qed.

(** With [generations <= 0] the loop body never runs and [scores] is
    unbound: [fit] raises [UnboundLocalError] without drawing a
    population. *)
Theorem search_without_generations (s : store)
    (frequencies impedances : value) (g : Z) :
  attrs s !! "generations" = Some (VInt g) →
  (g ≤ 0)%Z →
  FlexiCircuit.fit frequencies impedances s =
    mkOutcome s [] (inl (UnboundLocalError "scores")).
Proof.
  intros Hg Hle. rewrite fit_run, Hg. cbn [range].
  unfold mret, result_ret. replace (Z.to_nat g) with 0%nat by lia.
  reflexivity.
Qed.

(** *** What the search depends on *)

Lemma score_population_independent Z f pops :
  ∀ acc s s',
    out_trace (FlexiCircuit.score_population Z f pops acc s)
      = out_trace (FlexiCircuit.score_population Z f pops acc s') ∧
    out_result (FlexiCircuit.score_population Z f pops acc s)
      = out_result (FlexiCircuit.score_population Z f pops acc s').
Proof.
  induction pops as [| pop rest IH]; intros acc s s'; [split; reflexivity |].
  rewrite !score_population_cons. cbn zeta.
  destruct (calculateCircuitLength pop) as [e | n]; [split; reflexivity |].
  destruct (leastsq _ _ _ _) as [e | [p_values fvec]]; [split; reflexivity |].
  cbn [out_trace out_result].
  destruct (IH (acc ++ [VList [mean_square fvec; pop]])
              (with_attr "initial_guess" (uniform_guess n)
                 (with_attr "circuit" pop s))
              (with_attr "initial_guess" (uniform_guess n)
                 (with_attr "circuit" pop s'))) as [-> ->].
  split; reflexivity.
Qed.

Lemma generations_loop_independent Z f k :
  ∀ scores s s',
    attrs s !! "popsize" = attrs s' !! "popsize" →
    draws s = draws s' →
    out_trace (FlexiCircuit.generations_loop Z f k scores s)
      = out_trace (FlexiCircuit.generations_loop Z f k scores s') ∧
    out_result (FlexiCircuit.generations_loop Z f k scores s)
      = out_result (FlexiCircuit.generations_loop Z f k scores s').
Proof.
  induction k as [| k IH]; intros scores s s' Hp Hd; [split; reflexivity |].
  rewrite !generations_loop_S, <- Hp, <- Hd.
  destruct (attrs s !! "popsize") as [popsize |] eqn:Hps; [| split; reflexivity].
  cbn zeta.
  destruct (make_population (draws s) popsize 5) as [e | pops];
    [split; reflexivity |].
  set (s1 := mkStore (<["population" := VList pops]> (attrs s)) (S (draws s))).
  set (s1' := mkStore (<["population" := VList pops]> (attrs s')) (S (draws s))).
  destruct (score_population_independent Z f pops [] s1 s1') as [Htr Hres].
  destruct (score_population_frame Z f pops "popsize" ltac:(done) ltac:(done)
              [] s1) as [Hp1 Hd1].
  destruct (score_population_frame Z f pops "popsize" ltac:(done) ltac:(done)
              [] s1') as [Hp1' Hd1'].
  destruct (FlexiCircuit.score_population Z f pops [] s1) as [s2 t2 r2].
  destruct (FlexiCircuit.score_population Z f pops [] s1') as [s2' t2' r2'].
  cbn [out_trace out_result out_store attrs draws] in *.
  rewrite <- Htr, <- Hres.
  destruct r2 as [e | b]; [split; reflexivity |].
  assert (Hp2 : attrs s2 !! "popsize" = attrs s2' !! "popsize").
  { rewrite Hp1, Hp1'. subst s1 s1'. cbn [attrs].
    rewrite !lookup_insert_ne by done. rewrite Hps. exact Hp. }
  assert (Hd2 : draws s2 = draws s2') by (rewrite Hd1, Hd1'; reflexivity).
  destruct (IH (Some b) s2 s2' Hp2 Hd2) as [Htr' Hres'].
  rewrite Htr', Hres'. split; reflexivity.
Qed.

(** The result and the calls of the search depend on the instance through
    [generations], [popsize] and the random source only: [max_elements],
    the user's [initial_guess] and any earlier [circuit] or [population]
    have no influence. *)
Theorem search_depends_on_generations_and_popsize
    (s s' : store) (frequencies impedances : value) :
  attrs s !! "generations" = attrs s' !! "generations" →
  attrs s !! "popsize" = attrs s' !! "popsize" →
  draws s = draws s' →
  out_result (FlexiCircuit.fit frequencies impedances s)
    = out_result (FlexiCircuit.fit frequencies impedances s') ∧
  out_trace (FlexiCircuit.fit frequencies impedances s)
    = out_trace (FlexiCircuit.fit frequencies impedances s').
Proof.
  intros Hg Hp Hd. rewrite !fit_run, <- Hg.
  destruct (attrs s !! "generations") as [generations |]; [| split; reflexivity].
  destruct (range generations) as [e | k]; [split; reflexivity |]. cbn zeta.
  destruct (generations_loop_independent impedances frequencies k None s s'
              Hp Hd) as [Htr Hres].
  destruct (FlexiCircuit.generations_loop impedances frequencies k None s)
    as [s2 t2 r2].
  destruct (FlexiCircuit.generations_loop impedances frequencies k None s')
    as [s2' t2' r2'].
  cbn [out_trace out_result] in *. subst t2' r2'.
  destruct r2 as [e | [b |]]; split; reflexivity.
Qed.

(** *** What the search emits *)




(** *** Which candidates are fitted *)

Lemma evaluated_app tr tr' : evaluated (tr ++ tr') = evaluated tr ++ evaluated tr'.
Proof. unfold evaluated. apply omap_app. Qed.

Lemma score_population_evaluated Z f pops :
  ∀ acc s b,
    batch Z f pops = inr b →
    evaluated (out_trace (FlexiCircuit.score_population Z f pops acc s)) = pops.
Proof.
  induction pops as [| pop rest IH]; intros acc s b; [reflexivity |].
  rewrite batch_cons, score_population_cons. unfold score_candidate.
  destruct (calculateCircuitLength pop) as [e | n]; [intros [=] |].
  cbn. destruct (leastsq _ _ _ _) as [e | [p_values fvec]]; [intros [=] |].
  cbn. destruct (batch Z f rest) as [e | b'] eqn:Hb; [intros [=] |].
  intros _. f_equal. exact (IH _ _ b' eq_refl).
Qed.

Lemma generations_loop_evaluated Z f popsize populations :
  ∀ scores s,
    attrs s !! "popsize" = Some popsize →
    generations_drawn Z f popsize (draws s) populations →
    evaluated (out_trace (FlexiCircuit.generations_loop Z f (length populations)
                            scores s))
      = concat populations ∧
    draws (out_store (FlexiCircuit.generations_loop Z f (length populations)
                        scores s))
      = (draws s + length populations)%nat.
Proof.
  induction populations as [| pops rest IH]; intros scores s Hp Hdrawn.
  - cbn. split; [reflexivity | lia].
  - cbn [length]. rewrite generations_loop_S, Hp. cbn zeta.
    destruct (Hdrawn 0%nat pops eq_refl) as (Hpops & b & Hb).
    rewrite Nat.add_0_r in Hpops. rewrite Hpops.
    set (s1 := mkStore _ _).
    destruct (score_population_batch Z f pops [] s1 b Hb)
      as (s2 & t2 & Hsp & Hd & Hp2 & _).
    pose proof (score_population_evaluated Z f pops [] s1 b Hb) as Hev.
    rewrite Hsp in *. cbn [out_result out_store out_trace app] in *.
    destruct (IH (Some b) s2) as [Hrest Hdraws].
    { rewrite Hp2. subst s1. cbn. by rewrite lookup_insert_ne. }
    { intros i pops' Hi. rewrite Hd. subst s1. cbn [draws].
      replace (S (draws s) + i)%nat with (draws s + S i)%nat by lia.
      by apply Hdrawn. }
    split.
    + change (EMakePopulation popsize 5 :: t2 ++ ?t)
        with ([EMakePopulation popsize 5] ++ t2 ++ t).
      rewrite !evaluated_app, Hev, Hrest. reflexivity.
    + rewrite Hdraws, Hd. subst s1. cbn [draws]. lia.
Qed.

(** When every generation can be drawn and scored, the search draws one
    population per generation and fits every candidate of every
    generation once, in order. *)
Theorem search_fits_every_candidate
    (s : store) (frequencies impedances popsize : value)
    (populations : list (list value)) :
  attrs s !! "generations" = Some (VInt (Z.of_nat (length populations))) →
  attrs s !! "popsize" = Some popsize →
  generations_drawn impedances frequencies popsize (draws s) populations →
  evaluated (out_trace (FlexiCircuit.fit frequencies impedances s))
    = concat populations ∧
  draws (out_store (FlexiCircuit.fit frequencies impedances s))
    = (draws s + length populations)%nat.
Proof.
  intros Hg Hp Hdrawn. rewrite fit_run, Hg. cbn [range].
  unfold mret, result_ret. rewrite Nat2Z.id. cbn zeta.
  destruct (generations_loop_evaluated impedances frequencies popsize
              populations None s Hp Hdrawn) as [Hev Hd].
  destruct (FlexiCircuit.generations_loop impedances frequencies
              (length populations) None s) as [s2 t2 [e | [b |]]];
    cbn [out_trace out_store out_result] in *; try (split; assumption).
  split; [| exact Hd].
  rewrite evaluated_app, Hev. cbn. by rewrite app_nil_r.
Qed.

(** *** A candidate whose description cannot be measured *)

Lemma score_population_bad_description Z f pre bad post e :
  ∀ acc s b,
    batch Z f pre = inr b →
    calculateCircuitLength bad = inl e →
    out_result (FlexiCircuit.score_population Z f (pre ++ bad :: post) acc s)
      = inl e ∧
    evaluated (out_trace
                 (FlexiCircuit.score_population Z f (pre ++ bad :: post) acc s))
      = pre ∧
    attrs (out_store
             (FlexiCircuit.score_population Z f (pre ++ bad :: post) acc s))
      !! "circuit" = Some bad.
Proof.
  induction pre as [| pop rest IH]; intros acc s b Hb Hbad.
  - cbn [app]. rewrite score_population_cons, Hbad. cbn.
    repeat split. by rewrite lookup_insert_eq.
  - cbn [app]. rewrite score_population_cons. revert Hb.
    rewrite batch_cons. unfold score_candidate.
    destruct (calculateCircuitLength pop) as [e' | n]; [intros [=] |].
    cbn. destruct (leastsq _ _ _ _) as [e' | [p_values fvec]]; [intros [=] |].
    cbn. destruct (batch Z f rest) as [e' | b'] eqn:Hb'; [intros [=] |].
    intros _.
    destruct (IH (acc ++ [VList [mean_square fvec; pop]])
                (with_attr "initial_guess" (uniform_guess n)
                   (with_attr "circuit" pop s)) b' eq_refl Hbad)
      as (Hres & Hev & Hc).
    cbn [out_result out_store out_trace].
    split; [exact Hres |]. split; [f_equal; exact Hev | exact Hc].
Qed.

(** When [calculateCircuitLength] raises for a candidate, the search
    raises that exception: the candidates before it have been fitted,
    this one and those after it are not, and [circuit] is left holding
    it. *)
Theorem unmeasurable_candidate_aborts_search
    (s : store) (frequencies impedances popsize bad : value) (g : Z)
    (pre post b : list value) (e : exn) :
  attrs s !! "generations" = Some (VInt g) →
  (1 ≤ g)%Z →
  attrs s !! "popsize" = Some popsize →
  make_population (draws s) popsize 5 = inr (pre ++ bad :: post) →
  batch impedances frequencies pre = inr b →
  calculateCircuitLength bad = inl e →
  out_result (FlexiCircuit.fit frequencies impedances s) = inl e ∧
  evaluated (out_trace (FlexiCircuit.fit frequencies impedances s)) = pre ∧
  attrs (out_store (FlexiCircuit.fit frequencies impedances s)) !! "circuit"
    = Some bad.
Proof.
  intros Hg Hpos Hp Hpops Hb Hbad. rewrite fit_run, Hg. cbn [range].
  unfold mret, result_ret.
  destruct (Z.to_nat g) as [| k] eqn:Hk; [lia |]. cbn zeta.
  rewrite generations_loop_S, Hp. cbn zeta. rewrite Hpops.
  set (s1 := mkStore _ _).
  destruct (score_population_bad_description impedances frequencies pre bad post
              e [] s1 b Hb Hbad) as (Hres & Hev & Hc).
  destruct (FlexiCircuit.score_population impedances frequencies
              (pre ++ bad :: post) [] s1) as [s2 t2 r2].
  cbn [out_result out_store out_trace] in *. subst r2.
  cbn [out_result out_store out_trace]. repeat split; assumption.
Qed.

End SearchRuns.

(** * The theorems at concrete inputs *)

Lemma predict_requires_fit_witness :
  (attrs unfit_model !! "parameters_" = Some VNone ∧
   BaseCircuit.predict (H := sample_externals) sample_frequencies unfit_model =
     mkOutcome unfit_model []
       (inl (ValueError "The model hasn't been fit yet"))) ∧
  BaseCircuit.predict (H := sample_externals) sample_frequencies fitted_model =
    mkOutcome fitted_model
      [EComputeCircuit (VStr "R_0-p(R_1,C_1)-W_1/W_2")
         (VList [VFloat 1; VFloat 1; VFloat 1; VFloat 1; VFloat 1])
         (VList [VFloat 1; VFloat 10])]
      (inr (VList [VFloat 1; VFloat 10])).
Proof.
  split.
  - split; [reflexivity |].
    apply (proj1 (predict_requires_fit (H := sample_externals) unfit_model
                    sample_frequencies)).
    reflexivity.
  - apply (proj2 (predict_requires_fit (H := sample_externals) fitted_model
                    sample_frequencies)
             (VNdarray float64 [VFloat 1; VFloat 1; VFloat 1; VFloat 1; VFloat 1]));
      reflexivity.
Defined.

Lemma fit_without_initial_guess_witness :
  (attrs unfit_model !! "initial_guess" = Some VNone ∧
   valid_fit_inputs sample_frequencies sample_impedance = true) ∧
  out_store (BaseCircuit.fit (H := sample_externals) sample_frequencies
               sample_impedance unfit_model) = unfit_model ∧
  out_trace (BaseCircuit.fit (H := sample_externals) sample_frequencies
               sample_impedance unfit_model) = [] ∧
  out_result (BaseCircuit.fit (H := sample_externals) sample_frequencies
                sample_impedance unfit_model)
    = inl (ValueError "no initial guess supplied").
Proof.
  assert (Hguess : attrs unfit_model !! "initial_guess" = Some VNone)
    by reflexivity.
  assert (Hvalid : valid_fit_inputs sample_frequencies sample_impedance = true)
    by reflexivity.
  destruct (fit_without_initial_guess (H := sample_externals) unfit_model
              sample_frequencies sample_impedance Hguess)
    as (Hstore & Htrace & _ & Hresult).
  split; [split; assumption |].
  split; [exact Hstore |]. split; [exact Htrace | exact (Hresult Hvalid)].
Defined.

Lemma Randles_guess_length_checked_witness :
  (iter_values guess_of_five
     = inr [VFloat 1; VFloat 1; VFloat 1; VFloat 1; VFloat 1] ∧
   Forall (λ i, is_number i = true)
     [VFloat 1; VFloat 1; VFloat 1; VFloat 1; VFloat 1]) ∧
  out_result (Randles.__init__ (H := sample_externals) guess_of_five true
                default_algorithm VNone (new_object 0)) =
    inl (AssertionError
           "Initial guess length needs to be equal to {circuit_length}" []).
Proof.
  assert (Hall : Forall (λ i, is_number i = true)
                   [VFloat 1; VFloat 1; VFloat 1; VFloat 1; VFloat 1])
    by (repeat constructor).
  split; [split; [reflexivity | exact Hall] |].
  exact (proj2 (proj2 (Randles_guess_length_checked (H := sample_externals)
                         (λ d, eq_refl) guess_of_five _ true default_algorithm
                         VNone 0%nat eq_refl Hall))).
Defined.

(** The constructor with [CPE] accepts a guess of six numbers and rejects
    one of four. *)
Lemma Randles_CPE_expects_six_not_four :
  out_result (Randles.__init__ (H := sample_externals) guess_of_six true
                default_algorithm VNone (new_object 0)) = inr () ∧
  out_result (Randles.__init__ (H := sample_externals) guess_of_four true
                default_algorithm VNone (new_object 0)) =
    inl (AssertionError
           "Initial guess length needs to be equal to {circuit_length}" []).
Proof. split; reflexivity. Qed.

Lemma fit_returns_last_generation_witness :
  ∃ s' tr pops b,
    sample_search_run = mkOutcome s' tr (inr (VList b)) ∧
    make_population (Externals := sample_externals)
      (draws (search_model 2 3) + (Z.to_nat 2 - 1)) (VInt 3) 5 = inr pops ∧
    batch (H := sample_externals) sample_impedance sample_frequencies pops
      = inr b ∧
    attrs s' !! "population" = Some (VList pops) ∧
    Forall2 (λ entry pop, ∃ score, entry = VList [score; pop]) b pops ∧
    (length b ≤ 3)%nat.
Proof.
  apply (fit_returns_last_generation (H := sample_externals)
           (search_model 2 3) sample_frequencies sample_impedance (VInt 3) 2 3);
    [reflexivity | lia | reflexivity |].
  intros i _. exists sample_population, sample_scores.
  split; [reflexivity |]. split; [simpl; lia | reflexivity].
Defined.

(** Two generations of three candidates: one list of three entries comes
    back, not two batches. *)
Lemma fit_two_generations_returns_one_batch :
  out_result sample_search_run = inr (VList sample_scores) ∧
  ¬ is_batches 2 3 (VList sample_scores).
Proof.
  split; [reflexivity |].
  intros (batches & Heq & Hlen & _).
  injection Heq as <-. discriminate Hlen.
Qed.

Lemma candidate_failure_aborts_search_witness :
  (out_trace failing_search_run =
     [EMakePopulation (VInt 2) 5; EPrint (VStr "R_0-C_1")] ++
     ELeastsq (uniform_guess 2) sample_impedance sample_frequencies
       (VStr "R_0-C_1") :: [] ∧
   leastsq (Externals := failing_externals) (uniform_guess 2) sample_impedance
     sample_frequencies (VStr "R_0-C_1")
     = inl (TypeError "Improper input: N=2 must not exceed M=1")) ∧
  out_result failing_search_run
    = inl (TypeError "Improper input: N=2 must not exceed M=1").
Proof.
  assert (Htrace : out_trace failing_search_run =
            [EMakePopulation (VInt 2) 5; EPrint (VStr "R_0-C_1")] ++
            ELeastsq (uniform_guess 2) sample_impedance sample_frequencies
              (VStr "R_0-C_1") :: [])
    by reflexivity.
  assert (Hraise : leastsq (Externals := failing_externals) (uniform_guess 2)
                     sample_impedance sample_frequencies (VStr "R_0-C_1")
                   = inl (TypeError "Improper input: N=2 must not exceed M=1"))
    by reflexivity.
  split; [split; assumption |].
  exact (proj2 (candidate_failure_aborts_search (H := failing_externals)
                  (search_model 1 2) sample_frequencies sample_impedance
                  _ _ _ _ _ _ _ Htrace Hraise)).
Defined.

(** The first of two candidates fails to fit: the search raises and the
    second candidate is never evaluated. *)
Lemma failed_candidate_aborts_generation :
  attrs (out_store failing_search_run) !! "population"
    = Some (VList [VStr "R_0-C_1"; VStr "R_0"]) ∧
  evaluated (out_trace failing_search_run) = [VStr "R_0-C_1"] ∧
  out_result failing_search_run
    = inl (TypeError "Improper input: N=2 must not exceed M=1").
Proof. repeat split; reflexivity. Qed.

Lemma fit_overwrites_guess_and_circuit_witness :
  (attrs (search_model 2 3) !! "initial_guess" = Some guess_of_four ∧
   out_result sample_search_run = inr (VList sample_scores) ∧
   last_evaluated (out_trace sample_search_run) = Some (VStr "R_0-C_1")) ∧
  attrs (out_store sample_search_run) !! "circuit" = Some (VStr "R_0-C_1") ∧
  ∃ n, calculateCircuitLength (Externals := sample_externals) (VStr "R_0-C_1")
         = inr n ∧
       attrs (out_store sample_search_run) !! "initial_guess"
         = Some (uniform_guess n).
Proof.
  assert (Hres : out_result sample_search_run = inr (VList sample_scores))
    by reflexivity.
  assert (Hlast : last_evaluated (out_trace sample_search_run)
                  = Some (VStr "R_0-C_1"))
    by reflexivity.
  split; [repeat split; try assumption; reflexivity |].
  exact (fit_overwrites_guess_and_circuit (H := sample_externals)
           (search_model 2 3) sample_frequencies sample_impedance
           (VList sample_scores) (VStr "R_0-C_1") Hres Hlast).
Defined.

Lemma FlexiCircuit_predict_attribute_error_witness :
  other_model (H := sample_externals) unfit_model ∧
  BaseCircuit.predict (H := sample_externals) sample_frequencies unfit_model =
    mkOutcome unfit_model [] (inl (ValueError "The model hasn't been fit yet")).
Proof.
  assert (Hmodel : other_model (H := sample_externals) unfit_model).
  { exact (model_DefineCircuit VNone (VStr "R_0-C_1") default_algorithm VNone
             0%nat _ eq_refl eq_refl). }
  split; [exact Hmodel |].
  destruct (FlexiCircuit_predict_attribute_error (H := sample_externals)
              VNone (VInt 2) (VInt 30) VNone sample_frequencies 0%nat)
    as (flexi & _ & _ & _ & Hother).
  exact (Hother unfit_model Hmodel).
Defined.

Lemma fit_stores_parameters_witness :
  BaseCircuit.fit (H := sample_externals) sample_frequencies sample_impedance
    randles_model =
  mkOutcome (with_attr "parameters_" fitted_parameters randles_model)
    [ECircuitFit sample_frequencies sample_impedance
       (VStr "R_0-p(R_1,C_1)-W_1/W_2") guess_of_five default_algorithm VNone]
    (inr ()).
Proof.
  apply (fit_stores_parameters (H := sample_externals) randles_model
           sample_frequencies sample_impedance
           (VStr "R_0-p(R_1,C_1)-W_1/W_2") guess_of_five default_algorithm
           VNone fitted_parameters VNone); reflexivity.
Defined.

Lemma failed_fit_leaves_model_witness :
  out_result (BaseCircuit.fit (H := stalled_externals) sample_frequencies
                sample_impedance fitted_model)
    = inl (ExternalError "Optimal parameters not found") ∧
  out_store (BaseCircuit.fit (H := stalled_externals) sample_frequencies
               sample_impedance fitted_model) = fitted_model.
Proof.
  assert (Hraise : out_result (BaseCircuit.fit (H := stalled_externals)
                     sample_frequencies sample_impedance fitted_model)
                   = inl (ExternalError "Optimal parameters not found"))
    by reflexivity.
  split; [exact Hraise |].
  exact (proj1 (failed_fit_leaves_model (H := stalled_externals) fitted_model
                  sample_frequencies sample_impedance _ Hraise)).
Defined.

Lemma refit_repeats_the_fit_witness :
  BaseCircuit.fit (H := sample_externals) sample_frequencies sample_impedance
    (out_store (BaseCircuit.fit (H := sample_externals) sample_frequencies
                  sample_impedance randles_model)) =
  mkOutcome
    (out_store (BaseCircuit.fit (H := sample_externals) sample_frequencies
                  sample_impedance randles_model))
    [ECircuitFit sample_frequencies sample_impedance
       (VStr "R_0-p(R_1,C_1)-W_1/W_2") guess_of_five default_algorithm VNone]
    (inr ()).
Proof.
  apply (refit_repeats_the_fit (H := sample_externals) randles_model
           sample_frequencies sample_impedance
           (VStr "R_0-p(R_1,C_1)-W_1/W_2") guess_of_five default_algorithm
           VNone fitted_parameters VNone); reflexivity.
Defined.

Lemma fit_then_predict_witness :
  BaseCircuit.predict (H := sample_externals) sample_frequencies
    (out_store (BaseCircuit.fit (H := sample_externals) sample_frequencies
                  sample_impedance randles_model)) =
  mkOutcome
    (out_store (BaseCircuit.fit (H := sample_externals) sample_frequencies
                  sample_impedance randles_model))
    [EComputeCircuit (VStr "R_0-p(R_1,C_1)-W_1/W_2")
       (VList [VFloat 1; VFloat 1; VFloat 1; VFloat 1; VFloat 1])
       (VList [VFloat 1; VFloat 10])]
    (inr (VList [VFloat 1; VFloat 10])).
Proof.
  apply (fit_then_predict (H := sample_externals) randles_model
           sample_frequencies sample_impedance
           (VStr "R_0-p(R_1,C_1)-W_1/W_2") guess_of_five default_algorithm
           VNone VNone float64 float64); reflexivity.
Defined.

Lemma constructors_reject_first_non_number_witness :
  BaseCircuit.__init__ (VList ([VInt 1] ++ VStr "x" :: [VNone]))
    default_algorithm VNone (new_object 0) =
  mkOutcome (new_object 0) []
    (inl (AssertionError "value {} in initial_guess is not a number"
            [VStr "x"])).
Proof.
  refine (proj1 (constructors_reject_first_non_number (H := sample_externals)
                   [VInt 1] [VNone] (VStr "x") VNone default_algorithm VNone
                   false (new_object 0) _ _)).
  - repeat constructor.
  - reflexivity.
Defined.

Lemma DefineCircuit_guess_length_checked_witness :
  out_result (DefineCircuit.__init__ (H := sample_externals)
                (VList [VFloat 1; VInt 2]) (VStr "R_0-C_1") default_algorithm
                VNone (new_object 0)) = inr () ∧
  out_result (DefineCircuit.__init__ (H := sample_externals)
                (VList [VFloat 1; VInt 2]) (VStr "R_0") default_algorithm
                VNone (new_object 0)) =
    inl (AssertionError
           "Initial guess length needs to be equal to {circuit_length}" []).
Proof.
  assert (Hall : Forall (λ i, is_number i = true) [VFloat 1; VInt 2])
    by (repeat constructor).
  split.
  - exact (DefineCircuit_guess_length_checked (H := sample_externals)
             (VList [VFloat 1; VInt 2]) (VStr "R_0-C_1") default_algorithm VNone
             _ (new_object 0) eq_refl Hall).
  - exact (DefineCircuit_guess_length_checked (H := sample_externals)
             (VList [VFloat 1; VInt 2]) (VStr "R_0") default_algorithm VNone
             _ (new_object 0) eq_refl Hall).
Defined.

Lemma DefineCircuit_without_guess_is_inert_witness :
  out_result (DefineCircuit.__init__ (H := sample_externals) VNone VNone
                default_algorithm VNone (new_object 0)) = inr () ∧
  BaseCircuit.fit (H := sample_externals) sample_frequencies sample_impedance
    (out_store (DefineCircuit.__init__ (H := sample_externals) VNone VNone
                  default_algorithm VNone (new_object 0))) =
  mkOutcome
    (out_store (DefineCircuit.__init__ (H := sample_externals) VNone VNone
                  default_algorithm VNone (new_object 0)))
    [] (inl (ValueError "no initial guess supplied")) ∧
  BaseCircuit.predict (H := sample_externals) sample_frequencies
    (out_store (DefineCircuit.__init__ (H := sample_externals) VNone VNone
                  default_algorithm VNone (new_object 0))) =
  mkOutcome
    (out_store (DefineCircuit.__init__ (H := sample_externals) VNone VNone
                  default_algorithm VNone (new_object 0)))
    [] (inl (ValueError "The model hasn't been fit yet")).
Proof.
  apply (DefineCircuit_without_guess_is_inert (H := sample_externals) VNone
           default_algorithm VNone sample_frequencies sample_impedance
           sample_frequencies (new_object 0)).
  reflexivity.
Defined.

Lemma Randles_fit_uses_stored_description_witness :
  BaseCircuit.fit (H := stalled_externals) sample_frequencies sample_impedance
    (out_store (Randles.__init__ (H := stalled_externals) guess_of_six true
                  default_algorithm VNone (new_object 0))) =
  mkOutcome
    (out_store (Randles.__init__ (H := stalled_externals) guess_of_six true
                  default_algorithm VNone (new_object 0)))
    [ECircuitFit sample_frequencies sample_impedance
       (VStr "R_0-p(R_1,E_1/E_2)-W_1/W_2") guess_of_six default_algorithm VNone]
    (inl (ExternalError "Optimal parameters not found")).
Proof.
  exact (Randles_fit_uses_stored_description (H := stalled_externals)
           guess_of_six default_algorithm VNone sample_frequencies
           sample_impedance true 0%nat eq_refl eq_refl).
Defined.

Lemma BaseCircuit_instance_cannot_fit_witness :
  BaseCircuit.fit (H := sample_externals) sample_frequencies sample_impedance
    base_model =
  mkOutcome base_model [] (inl (AttributeError "circuit")).
Proof.
  exact (BaseCircuit_instance_cannot_fit (H := sample_externals) guess_of_five
           default_algorithm VNone sample_frequencies sample_impedance 0%nat
           eq_refl eq_refl eq_refl).
Defined.

Lemma fit_on_empty_series_witness :
  BaseCircuit.fit (H := sample_externals) (VNdarray float64 [])
    (VNdarray complex128 []) randles_model =
  mkOutcome randles_model [] (inl (IndexError "index 0 is out of bounds")).
Proof.
  exact (fit_on_empty_series (H := sample_externals) randles_model float64
           (VNdarray complex128 []) eq_refl).
Defined.

Lemma fit_rejects_unlisted_dtype_witness :
  BaseCircuit.fit (H := sample_externals) int64_frequencies sample_impedance
    randles_model =
  mkOutcome randles_model []
    (inl (AssertionError "frequencies does not contain a number" [])).
Proof.
  exact (fit_rejects_unlisted_dtype (H := sample_externals) randles_model int64
           (VInt 1) [VInt 10] sample_impedance eq_refl eq_refl).
Defined.


Lemma repr_of_BaseCircuit_instance_fails_witness :
  BaseCircuit.__repr__ base_model =
    mkOutcome base_model [] (inl (AttributeError "name")).
Proof.
  exact (repr_of_BaseCircuit_instance_fails guess_of_five default_algorithm
           VNone 0%nat eq_refl).
Defined.

Lemma repr_before_and_after_fit_witness :
  out_result (BaseCircuit.__repr__ randles_model)
    = inr (Format unfit_template
             [VStr "Randles"; guess_of_five; VStr "R_0-p(R_1,C_1)-W_1/W_2"]) ∧
  out_result (BaseCircuit.__repr__ fitted_model)
    = inr (Format fit_template
             [VStr "Randles"; fitted_parameters;
              VStr "R_0-p(R_1,C_1)-W_1/W_2"]).
Proof.
  apply (repr_before_and_after_fit (H := sample_externals) guess_of_five
           default_algorithm VNone sample_frequencies sample_impedance
           fitted_parameters VNone false 0%nat); reflexivity.
Defined.

Lemma search_without_generations_witness :
  FlexiCircuit.fit (H := sample_externals) sample_frequencies sample_impedance
    (search_model 0 3) =
  mkOutcome (search_model 0 3) [] (inl (UnboundLocalError "scores")).
Proof.
  apply (search_without_generations (H := sample_externals) (search_model 0 3)
           sample_frequencies sample_impedance 0); [reflexivity | lia].
Defined.

Lemma search_touches_three_attributes_witness :
  attrs (out_store sample_search_run) !! "popsize"
    = attrs (search_model 2 3) !! "popsize".
Proof.
  apply (search_touches_three_attributes (H := sample_externals)
           (search_model 2 3) sample_frequencies sample_impedance "popsize");
    discriminate.
Defined.

Lemma search_depends_on_generations_and_popsize_witness :
  out_result sample_search_run
    = out_result (FlexiCircuit.fit (H := sample_externals) sample_frequencies
                    sample_impedance other_search_model) ∧
  out_trace sample_search_run
    = out_trace (FlexiCircuit.fit (H := sample_externals) sample_frequencies
                   sample_impedance other_search_model).
Proof.
  apply (search_depends_on_generations_and_popsize (H := sample_externals)
           (search_model 2 3) other_search_model sample_frequencies
           sample_impedance); reflexivity.
Defined.


Lemma search_fits_every_candidate_witness :
  evaluated (out_trace sample_search_run)
    = sample_population ++ sample_population ∧
  draws (out_store sample_search_run) = 2%nat.
Proof.
  refine (search_fits_every_candidate (H := sample_externals)
            (search_model 2 3) sample_frequencies sample_impedance (VInt 3)
            [sample_population; sample_population] eq_refl eq_refl _).
  intros i pops Hi.
  assert (pops = sample_population) as ->.
  { destruct i as [| [| i]]; cbn in Hi; [congruence | congruence | discriminate]. }
  split; [reflexivity |]. exists sample_scores. reflexivity.
Defined.

Lemma unmeasurable_candidate_aborts_search_witness :
  out_result (FlexiCircuit.fit (H := stalled_externals) sample_frequencies
                sample_impedance (search_model 2 3))
    = inl (MalformedCircuitError "unknown element type") ∧
  evaluated (out_trace (FlexiCircuit.fit (H := stalled_externals)
                          sample_frequencies sample_impedance
                          (search_model 2 3)))
    = [VStr "R_0"] ∧
  attrs (out_store (FlexiCircuit.fit (H := stalled_externals)
                      sample_frequencies sample_impedance (search_model 2 3)))
    !! "circuit" = Some (VStr "R_0-X_1").
Proof.
  apply (unmeasurable_candidate_aborts_search (H := stalled_externals)
           (search_model 2 3) sample_frequencies sample_impedance (VInt 3)
           (VStr "R_0-X_1") 2 [VStr "R_0"] [VStr "C_0"]
           [VList [mean_square [0%R; 0%R]; VStr "R_0"]]);
    first [reflexivity | lia].
Defined.
